(** * cam2image: the camera-to-image publisher node

    A shallow embedding of [src/cam2image.cpp]: the encoding resolver
    [mat_type2encoding], the message builder [convert_frame_to_message]
    and the publisher loop of [main], together with the part of OpenCV's
    matrix type ([cv::Mat] headers over shared pixel storage, [Mat::create],
    [cv::flip]) and of rclcpp ([spin_some], [WallRate::sleep]) that the loop
    drives. *)

From Stdlib Require Import ZArith Lia.
From Stdlib.Strings Require Import Byte.
From stdpp Require Import base numbers list strings pretty.

Local Open Scope Z_scope.

(** ** OpenCV's matrix type codes

    The macros of [opencv2/core/hal/interface.h] and [opencv2/core/cvdef.h]
    that [cam2image.cpp] uses, with those that define them. *)

Module CV.

Definition CV_CN_MAX : Z := 512.
Definition CV_CN_SHIFT : Z := 3.
Definition CV_DEPTH_MAX : Z := Z.shiftl 1 CV_CN_SHIFT.

Definition CV_8U : Z := 0.
Definition CV_8S : Z := 1.
Definition CV_16U : Z := 2.
Definition CV_16S : Z := 3.
Definition CV_32S : Z := 4.
Definition CV_32F : Z := 5.
Definition CV_64F : Z := 6.
Definition CV_16F : Z := 7.

Definition CV_MAT_DEPTH_MASK : Z := CV_DEPTH_MAX - 1.
Definition CV_MAT_DEPTH (flags : Z) : Z := Z.land flags CV_MAT_DEPTH_MASK.
Definition CV_MAKETYPE (depth cn : Z) : Z :=
  CV_MAT_DEPTH depth + Z.shiftl (cn - 1) CV_CN_SHIFT.

Definition CV_8UC1 : Z := CV_MAKETYPE CV_8U 1.
Definition CV_8UC3 : Z := CV_MAKETYPE CV_8U 3.
Definition CV_8UC4 : Z := CV_MAKETYPE CV_8U 4.
Definition CV_16SC1 : Z := CV_MAKETYPE CV_16S 1.

Definition CV_MAT_CN_MASK : Z := Z.shiftl (CV_CN_MAX - 1) CV_CN_SHIFT.
Definition CV_MAT_CN (flags : Z) : Z :=
  Z.shiftr (Z.land flags CV_MAT_CN_MASK) CV_CN_SHIFT + 1.

(** Bytes per sample: one nibble of [0x28442211] per depth code. *)
Definition CV_ELEM_SIZE1 (type : Z) : Z :=
  Z.land (Z.shiftr 0x28442211 (CV_MAT_DEPTH type * 4)) 15.
(** Bytes per pixel. *)
Definition CV_ELEM_SIZE (type : Z) : Z := CV_MAT_CN type * CV_ELEM_SIZE1 type.

End CV.

Import CV.

(** ** Results of code that may throw *)

Inductive exn : Type :=
  | runtime_error (what : string).

Inductive result (A : Type) : Type :=
  | Ok (a : A)
  | Throw (e : exn).
Arguments Ok {A} a.
Arguments Throw {A} e.

(** ** The encoding resolver *)

Definition UnsupportedEncoding : exn := runtime_error "Unsupported encoding type".

Definition mat_type2encoding (mat_type : Z) : result string :=
  if mat_type =? CV_8UC1 then Ok "mono8"%string
  else if mat_type =? CV_8UC3 then Ok "bgr8"%string
  else if mat_type =? CV_16SC1 then Ok "mono16"%string
  else if mat_type =? CV_8UC4 then Ok "rgba8"%string
  else Throw UnsupportedEncoding.

(** ** Fixed-width integers *)

Definition to_uint32 (z : Z) : Z := z mod 2 ^ 32.
Definition to_size_t (z : Z) : Z := z mod 2 ^ 64.

(** [std::to_string] of a [size_t]: the decimal digits. *)
Definition to_string (n : Z) : string := pretty (Z.to_N n).

(** ** Pixel storage and [cv::Mat] headers

    A [cv::Mat] is a header (shape, type code, row stride) over pixel
    storage that several headers may share.  The storage lives in a heap of
    byte buffers; a buffer's address is its index and the null pointer is
    [None].  Buffers that lose their last header stay in the heap as
    garbage: nothing reads them again. *)

Abbreviation loc := nat (only parsing).
Abbreviation heap := (list (list byte)) (only parsing).

Module Mat.
Record t : Type := mk {
  rows : Z;            (* int rows *)
  cols : Z;            (* int cols *)
  type : Z;            (* int type() *)
  step : Z;            (* size_t step *)
  data : option loc    (* uchar * data *)
}.
End Mat.

(** [cv::Mat()] *)
Definition Mat_default : Mat.t :=
  Mat.mk 0 0 0 0 None.

(** [Mat::total()] *)
Definition Mat_total (m : Mat.t) : Z := Mat.rows m * Mat.cols m.

(** [Mat::empty()] *)
Definition Mat_empty (m : Mat.t) : bool :=
  match Mat.data m with
  | None => true
  | Some _ => Mat_total m =? 0
  end.

(** [Mat::elemSize()] *)
Definition Mat_elemSize (m : Mat.t) : Z := CV_ELEM_SIZE (Mat.type m).

(** [Mat::release()] *)
Definition Mat_release (m : Mat.t) : Mat.t :=
  Mat.mk 0 0 (Mat.type m) (Mat.step m) None.

(** The bytes a header points at. *)
Definition deref (h : heap) (p : option loc) : list byte :=
  match p with
  | Some l => default [] (h !! l)
  | None => []
  end.

Definition Mat_bytes (h : heap) (m : Mat.t) : list byte := deref h (Mat.data m).

(** [Mat::create(rows, cols, type)]: a header that already has the shape,
    the type and storage is kept as it is; otherwise the header is released
    and, unless the new matrix has no elements, points at freshly allocated
    storage of [rows] tightly packed rows.  Fresh storage is uninitialised;
    it reads as zeros here. *)
Definition Mat_create (h : heap) (m : Mat.t) (_rows _cols _type : Z)
    : heap * Mat.t :=
  if (Mat.rows m =? _rows) && (Mat.cols m =? _cols) && (Mat.type m =? _type)
     && bool_decide (is_Some (Mat.data m))
  then (h, m)
  else
    let _step := _cols * CV_ELEM_SIZE _type in
    if 0 <? _rows * _cols
    then (h ++ [replicate (Z.to_nat (_rows * _step)) x00],
          Mat.mk _rows _cols _type _step (Some (length h)))
    else (h, Mat.mk _rows _cols _type _step None).

(** [len] bytes of [l] from offset [off]. *)
Definition slice (off len : nat) (l : list byte) : list byte :=
  take len (drop off l).

(** Row [i] of a pixel buffer with row stride [stp] and [n] payload bytes per
    row. *)
Definition read_row (buf : list byte) (stp n : nat) (i : nat) : list byte :=
  slice (i * stp) n buf.

Definition read_rows (buf : list byte) (stp n k : nat) : list (list byte) :=
  (fun i => read_row buf stp n i) <$> seq 0 k.

(** Writes the rows [rs] into [buf] at row stride [stp]; the bytes of [buf]
    between the end of a row and the start of the next are kept. *)
Fixpoint write_rows (buf : list byte) (stp : nat) (rs : list (list byte))
    : list byte :=
  match rs with
  | [] => buf
  | r :: rs' =>
      r ++ drop (length r) (take stp buf) ++ write_rows (drop stp buf) stp rs'
  end.

Definition store (h : heap) (p : option loc) (buf : list byte) : heap :=
  match p with
  | Some l => <[l := buf]> h
  | None => h
  end.

(** Writes the rows [rs] through the header [m], at its row stride. *)
Definition Mat_put_rows (h : heap) (m : Mat.t) (rs : list (list byte)) : heap :=
  store h (Mat.data m)
    (write_rows (Mat_bytes h m) (Z.to_nat (Mat.step m)) rs).

(** ** [cv::flip(src, dst, 1)]

    OpenCV's horizontal flip, after its reference and its [flipHoriz]
    kernel: [dst] is created with the size and type of [src], and pixel [j]
    of every row of [dst] is pixel [cols - 1 - j] of the same row of [src].
    The source is read before the destination is written, so flipping in
    place is covered. *)

Definition flip_row (esz ncols : nat) (row : list byte) : list byte :=
  concat ((fun j => slice ((ncols - 1 - j) * esz) esz row) <$> seq 0 ncols).

Definition flipHoriz (src : list byte) (sstep : nat) (nrows ncols esz : nat)
    : list (list byte) :=
  flip_row esz ncols <$> read_rows src sstep (ncols * esz) nrows.

Definition cv_flip (h : heap) (src dst : Mat.t) : heap * Mat.t :=
  let esz := Z.to_nat (Mat_elemSize src) in
  let flipped :=
    flipHoriz (Mat_bytes h src) (Z.to_nat (Mat.step src))
              (Z.to_nat (Mat.rows src)) (Z.to_nat (Mat.cols src)) esz in
  let '(h1, dst1) :=
    Mat_create h dst (Mat.rows src) (Mat.cols src) (Mat.type src) in
  (Mat_put_rows h1 dst1 flipped, dst1).

(** ** [cv::VideoCapture]

    What the device delivers on one grab: nothing, or a picture of tightly
    packed rows. *)

Record picture : Type := {
  p_rows : Z;
  p_cols : Z;
  p_type : Z;
  p_data : list byte
}.

(** [cap >> frame]: a failed grab releases [frame]; a retrieved picture is
    copied into [frame], which is created for its size and type. *)
Definition VideoCapture_read (h : heap) (frame : Mat.t) (grab : option picture)
    : heap * Mat.t :=
  match grab with
  | None => (h, Mat_release frame)
  | Some p =>
      let n := Z.to_nat (p_cols p * CV_ELEM_SIZE (p_type p)) in
      let '(h1, frame1) := Mat_create h frame (p_rows p) (p_cols p) (p_type p) in
      (Mat_put_rows h1 frame1 (read_rows (p_data p) n n (Z.to_nat (p_rows p))),
       frame1)
  end.

(** ** The message builder *)

Module Image.
(** [sensor_msgs::msg::Image] *)
Record t : Type := mk {
  frame_id : string;       (* header.frame_id *)
  height : Z;              (* uint32 *)
  width : Z;               (* uint32 *)
  encoding : string;
  is_bigendian : bool;     (* uint8 *)
  step : Z;                (* uint32 *)
  data : list byte         (* std::vector<uint8_t> *)
}.
End Image.

Definition Image_default : Image.t :=
  Image.mk EmptyString 0 0 EmptyString false 0 [].

(** [v.resize(n)] on a vector of bytes, for [n] that a vector can hold *)
Definition resize (v : list byte) (n : nat) : list byte :=
  take n v ++ replicate (n - length v) x00.

(** [memcpy(dst, src, n)]; [src] must hold [n] bytes. *)
Definition memcpy (dst src : list byte) (n : nat) : list byte :=
  take n src ++ drop n dst.

(** The message that the function returns with, or the exception that
    leaves it; what a throw leaves in the out-parameter is
    [convert_frame_to_message_out] below. *)
Definition convert_frame_to_message
    (h : heap) (frame : Mat.t) (frame_id : Z) (msg : Image.t)
    : result Image.t :=
  let msg_height := to_uint32 (Mat.rows frame) in
  let msg_width := to_uint32 (Mat.cols frame) in
  match mat_type2encoding (Mat.type frame) with
  | Throw e => Throw e
  | Ok msg_encoding =>
      let msg_step := to_uint32 (Mat.step frame) in
      let size := Z.to_nat (to_size_t (Mat.step frame * to_size_t (Mat.rows frame))) in
      let msg_data := resize (Image.data msg) size in
      let msg_data := memcpy msg_data (Mat_bytes h frame) size in
      Ok (Image.mk (to_string frame_id) msg_height msg_width msg_encoding
            (Image.is_bigendian msg) msg_step msg_data)
  end.

(** The message as [convert_frame_to_message] leaves it.  [msg] is an
    out-parameter: when the encoding resolver throws, [height] and [width]
    have been assigned already and the other fields are as they were. *)
Definition convert_frame_to_message_out
    (h : heap) (frame : Mat.t) (frame_id : Z) (msg : Image.t) : Image.t :=
  match convert_frame_to_message h frame frame_id msg with
  | Ok msg' => msg'
  | Throw _ =>
      Image.mk (Image.frame_id msg) (to_uint32 (Mat.rows frame))
        (to_uint32 (Mat.cols frame)) (Image.encoding msg)
        (Image.is_bigendian msg) (Image.step msg) (Image.data msg)
  end.

(** ** The publisher loop *)

Record state : Type := mkState {
  is_flipped : bool;
  frame : Mat.t;
  flipped_frame : Mat.t;
  i : Z;                (* size_t i *)
  mem : heap
}.

(** What one pass of the loop receives from outside: the grab of the capture
    device and the flip messages that [spin_some] finds queued, oldest
    first. *)
Record tick_input : Type := {
  grabbed : option picture;
  pending : list bool
}.

Inductive event : Type :=
  | EvPublish (msg : Image.t)
  | EvImshow (winname : string) (m : Mat.t) (pixels : list byte)
  | EvWaitKey (delay : Z)
  | EvSpinSome (handled : list bool)
  | EvSleep.

Inductive outcome : Type :=
  | Continue (st : state)
  | Uncaught (e : exn).

(** The subscription callback: [is_flipped = msg->data]. *)
Definition callback (st : state) (msg : bool) : state :=
  mkState msg (frame st) (flipped_frame st) (i st) (mem st).

(** [rclcpp::spin_some(node)]: runs the callback on every queued message. *)
Definition spin_some (st : state) (queue : list bool) : state :=
  fold_left callback queue st.

(** The body of [while (rclcpp::ok())].  [show_camera] is the local of
    [main] that the body reads.  [burger_mode] is initialised to [false] and
    never assigned, so the frame always comes from [cap >> frame]. *)
Definition loop_body (show_camera : bool) (st : state) (inp : tick_input)
    : outcome * list event :=
  let msg := Image_default in
  let msg := Image.mk (Image.frame_id msg) (Image.height msg) (Image.width msg)
               (Image.encoding msg) false (Image.step msg) (Image.data msg) in
  let '(h1, frame1) := VideoCapture_read (mem st) (frame st) (grabbed inp) in
  if negb (Mat_empty frame1) then
    let '(h2, flipped1, converted) :=
      if negb (is_flipped st)
      then (h1, flipped_frame st, convert_frame_to_message h1 frame1 (i st) msg)
      else
        let '(h2, flipped1) := cv_flip h1 frame1 (flipped_frame st) in
        (h2, flipped1, convert_frame_to_message h2 flipped1 (i st) msg) in
    match converted with
    | Throw e => (Uncaught e, [])
    | Ok msg =>
        let shown :=
          if show_camera
          then [EvImshow "cam2image" frame1 (Mat_bytes h2 frame1); EvWaitKey 1]
          else [] in
        let st1 :=
          mkState (is_flipped st) frame1 flipped1 (to_size_t (i st + 1)) h2 in
        (Continue (spin_some st1 (pending inp)),
         shown ++ [EvPublish msg; EvSpinSome (pending inp); EvSleep])
    end
  else
    let st1 := mkState (is_flipped st) frame1 (flipped_frame st) (i st) h1 in
    (Continue (spin_some st1 (pending inp)),
     [EvSpinSome (pending inp); EvSleep]).

(** The loop over the passes for which [rclcpp::ok()] held; after the last
    of them it is false and the loop is left. *)
Fixpoint loop (show_camera : bool) (st : state) (inps : list tick_input)
    : outcome * list event :=
  match inps with
  | [] => (Continue st, [])
  | inp :: rest =>
      match loop_body show_camera st inp with
      | (Continue st1, evs) =>
          let '(o, evs') := loop show_camera st1 rest in (o, evs ++ evs')
      | (Uncaught e, evs) => (Uncaught e, evs)
      end
  end.

(** The state in which [main] enters the loop. *)
Definition init : state := mkState false Mat_default Mat_default 1 [].

(** [main] from the point where the capture device is opened: [opened] is
    [cap.isOpened()]; [show_camera] is initialised to [false] and never
    assigned. *)
Inductive exit : Type :=
  | Returned (code : Z)
  | Terminated (e : exn).

Definition main (opened : bool) (inps : list tick_input) : exit * list event :=
  if negb opened then (Returned 1, [])
  else
    match loop false init inps with
    | (Continue _, evs) => (Returned 0, evs)
    | (Uncaught e, evs) => (Terminated e, evs)
    end.

(** The messages handed to the publisher, oldest first. *)
Definition published (evs : list event) : list Image.t :=
  omap (fun ev => match ev with EvPublish msg => Some msg | _ => None end) evs.

(** The matrices handed to [imshow]. *)
Definition displayed (evs : list event) : list (Mat.t * list byte) :=
  omap (fun ev => match ev with EvImshow _ m px => Some (m, px) | _ => None end)
       evs.

(** A channel layout is a sample depth (one of the eight depth codes) and a
    channel count between 1 and [CV_CN_MAX]. *)
Definition valid_layout (depth cn : Z) : Prop :=
  0 <= depth < CV_DEPTH_MAX /\ 1 <= cn <= CV_CN_MAX.

Definition supported (mat_type : Z) : Prop :=
  mat_type = CV_8UC1 \/ mat_type = CV_8UC3 \/
  mat_type = CV_16SC1 \/ mat_type = CV_8UC4.

(** ** Well-formed matrices and pictures *)

(** A header is well formed in a heap when its shape is non-negative, a row
    fits in the stride, and its storage holds [rows] rows of [step] bytes. *)
Definition wf_Mat (h : heap) (m : Mat.t) : Prop :=
  0 <= Mat.rows m /\ 0 <= Mat.cols m /\
  Mat.cols m * Mat_elemSize m <= Mat.step m /\
  length (Mat_bytes h m) = Z.to_nat (Mat.rows m * Mat.step m).

(** [Mat::isContinuous()]: rows are tightly packed. *)
Definition continuous (m : Mat.t) : Prop :=
  Mat.step m = Mat.cols m * Mat_elemSize m.

Definition valid (h : heap) (p : option loc) : Prop :=
  match p with
  | Some l => (l < length h)%nat
  | None => True
  end.

(** A header that [Mat::create] can have produced, in a heap that holds its
    storage. *)
Definition ok_Mat (h : heap) (m : Mat.t) : Prop :=
  wf_Mat h m /\ (is_Some (Mat.data m) -> continuous m) /\ valid h (Mat.data m).

(** A grabbed picture holds [p_rows] tightly packed rows, in storage that the
    address space can hold. *)
Definition wf_picture (p : picture) : Prop :=
  0 <= p_rows p /\ 0 <= p_cols p /\
  p_rows p * (p_cols p * CV_ELEM_SIZE (p_type p)) < 2 ^ 64 /\
  length (p_data p) = Z.to_nat (p_rows p * (p_cols p * CV_ELEM_SIZE (p_type p))).

Definition wf_input (inp : tick_input) : Prop :=
  match grabbed inp with
  | Some p => wf_picture p
  | None => True
  end.

(** The two matrices of [main] never share storage. *)
Definition separate (p q : option loc) : Prop :=
  forall l, p = Some l -> q <> Some l.

Definition inv (st : state) : Prop :=
  ok_Mat (mem st) (frame st) /\ ok_Mat (mem st) (flipped_frame st) /\
  separate (Mat.data (frame st)) (Mat.data (flipped_frame st)).

(** The pixel rows of a matrix: [rows] rows of [cols * elemSize] bytes. *)
Definition Mat_pixel_rows (h : heap) (m : Mat.t) : list (list byte) :=
  read_rows (Mat_bytes h m) (Z.to_nat (Mat.step m))
    (Z.to_nat (Mat.cols m * Mat_elemSize m)) (Z.to_nat (Mat.rows m)).

(** The horizontal mirror of a picture, as a picture. *)
Definition mirror (p : picture) : picture :=
  {| p_rows := p_rows p; p_cols := p_cols p; p_type := p_type p;
     p_data :=
       let esz := Z.to_nat (CV_ELEM_SIZE (p_type p)) in
       let n := Z.to_nat (p_cols p) in
       concat (flipHoriz (p_data p) (n * esz) (Z.to_nat (p_rows p)) n esz) |}.

(** ** Sample inputs *)

Module Sample.

(** One row of two gray pixels. *)
Definition gray2 : picture :=
  {| p_rows := 1; p_cols := 2; p_type := CV_8UC1; p_data := [x01; x02] |}.

(** Two rows of two three-byte pixels. *)
Definition bgr2x2 : picture :=
  {| p_rows := 2; p_cols := 2; p_type := CV_8UC3;
     p_data := [x01; x02; x03; x04; x05; x06; x07; x08; x09; x0a; x0b; x0c] |}.

(** One pixel of two 8-bit channels: a layout without an encoding. *)
Definition two_channel : picture :=
  {| p_rows := 1; p_cols := 1; p_type := CV_MAKETYPE CV_8U 2;
     p_data := [x01; x02] |}.

Definition tick (g : option picture) (q : list bool) : tick_input :=
  {| grabbed := g; pending := q |}.

(** A heap with one buffer, the storage of [gray_mat]. *)
Definition gray_heap : list (list byte) := [[x01; x02; x03; x04]].
Definition gray_mat : Mat.t := Mat.mk 2 2 CV_8UC1 2 (Some 0%nat).

End Sample.

(** ** Classifying passes and events *)

(** The grabbed picture has pixels: the frame it is copied into is not
    empty. *)
Definition has_pixels (p : picture) : bool := 0 <? p_rows p * p_cols p.

(** The pass gets a frame that is not empty. *)
Definition produces (inp : tick_input) : bool :=
  match grabbed inp with
  | Some p => has_pixels p
  | None => false
  end.

Definition has_encoding (mat_type : Z) : bool :=
  match mat_type2encoding mat_type with
  | Ok _ => true
  | Throw _ => false
  end.

(** The pass gets a frame that is not empty and has no encoding. *)
Definition unsupported_grab (inp : tick_input) : bool :=
  match grabbed inp with
  | Some p => has_pixels p && negb (has_encoding (p_type p))
  | None => false
  end.

(** The same grab with other flip messages queued. *)
Definition with_pending (inp : tick_input) (q : list bool) : tick_input :=
  {| grabbed := grabbed inp; pending := q |}.

(** All flip messages of a run, oldest first. *)
Definition toggles (inps : list tick_input) : list bool :=
  concat (pending <$> inps).

(** The encoding strings of [mat_type2encoding]. *)
Definition encodings : list string :=
  ["mono8"; "bgr8"; "mono16"; "rgba8"]%string.

(** * Properties *)

(** ** Slicing byte lists *)

Section slices.
Local Open Scope nat_scope.
Implicit Types (l buf row : list byte) (L rs : list (list byte)).

Lemma length_slice off len l :
  off + len <= length l -> length (slice off len l) = len.
Proof. intros H. unfold slice. rewrite length_take, length_drop. lia. Qed.

Lemma concat_slices n l k :
  concat ((fun i => slice (i * n) n l) <$> seq 0 k) = take (k * n) l.
Proof.
  induction k as [|k IH]; [reflexivity |].
  rewrite seq_S, fmap_app, concat_app, IH. simpl. rewrite app_nil_r.
  unfold slice. rewrite take_take_drop. f_equal. lia.
Qed.

Lemma length_concat_uniform n L :
  Forall (fun x => length x = n) L -> length (concat L) = length L * n.
Proof.
  induction 1 as [|x L Hx _ IH]; [reflexivity |].
  simpl. rewrite length_app, IH, Hx. lia.
Qed.

Lemma slice_concat n L i x :
  Forall (fun x => length x = n) L -> L !! i = Some x ->
  slice (i * n) n (concat L) = x.
Proof.
  intros HL. revert i. induction HL as [|y L Hy HL IH]; intros i Hi.
  - discriminate.
  - destruct i as [|i]; simpl in *.
    + injection Hi as ->. unfold slice. rewrite drop_0.
      apply take_app_length'. lia.
    + unfold slice. rewrite drop_app_ge by lia.
      replace (n + i * n - length y) with (i * n) by lia.
      apply IH, Hi.
Qed.

Lemma read_rows_concat n L :
  Forall (fun x => length x = n) L ->
  read_rows (concat L) n n (length L) = L.
Proof.
  intros HL. apply list_eq. intros i. unfold read_rows, read_row.
  rewrite list_lookup_fmap.
  destruct (decide (i < length L)) as [Hi|Hi].
  - rewrite lookup_seq_lt by assumption. simpl.
    destruct (lookup_lt_is_Some_2 L i Hi) as [x Hx].
    rewrite Hx. f_equal. apply slice_concat; assumption.
  - rewrite lookup_seq_ge by lia. rewrite lookup_ge_None_2 by lia. reflexivity.
Qed.

Lemma concat_read_rows n k buf :
  length buf = k * n -> concat (read_rows buf n n k) = buf.
Proof.
  intros H. unfold read_rows, read_row. rewrite concat_slices.
  apply take_ge. lia.
Qed.

Lemma length_read_rows buf stp n k : length (read_rows buf stp n k) = k.
Proof. unfold read_rows. rewrite length_fmap, length_seq. reflexivity. Qed.

Lemma read_rows_uniform buf stp n k :
  n <= stp -> length buf = k * stp ->
  Forall (fun x => length x = n) (read_rows buf stp n k).
Proof.
  intros Hn Hb. unfold read_rows. apply Forall_fmap, Forall_seq.
  intros i Hi. simpl. unfold read_row. apply length_slice. nia.
Qed.

Lemma write_rows_tight buf stp rs :
  Forall (fun r => length r = stp) rs ->
  write_rows buf stp rs = concat rs ++ drop (length rs * stp) buf.
Proof.
  intros H. revert buf. induction H as [|r rs Hr _ IH]; intros buf.
  - reflexivity.
  - simpl. rewrite IH, drop_drop, <- app_assoc. f_equal.
    rewrite drop_ge by (rewrite length_take; lia). reflexivity.
Qed.

Lemma lookup_slice off len l k :
  k < len -> slice off len l !! k = l !! (off + k).
Proof.
  intros H. unfold slice. rewrite lookup_take_lt by assumption.
  apply lookup_drop.
Qed.

Lemma lookup_concat_uniform n L i x k :
  Forall (fun x => length x = n) L -> L !! i = Some x -> k < n ->
  concat L !! (i * n + k) = x !! k.
Proof.
  intros HL Hi Hk. rewrite <- (slice_concat n L i x HL Hi).
  symmetry. apply lookup_slice, Hk.
Qed.

(** *** One row *)

Lemma flip_row_pixels_uniform esz nc row :
  nc * esz <= length row ->
  Forall (fun x => length x = esz)
    ((fun j => slice ((nc - 1 - j) * esz) esz row) <$> seq 0 nc).
Proof.
  intros H. apply Forall_fmap, Forall_seq. intros j Hj. simpl.
  apply length_slice. nia.
Qed.

Lemma length_flip_row esz nc row :
  nc * esz <= length row -> length (flip_row esz nc row) = nc * esz.
Proof.
  intros H. unfold flip_row.
  rewrite (length_concat_uniform esz) by (apply flip_row_pixels_uniform, H).
  rewrite length_fmap, length_seq. reflexivity.
Qed.

Lemma flip_row_pixel esz nc row j :
  nc * esz <= length row -> j < nc ->
  slice (j * esz) esz (flip_row esz nc row)
  = slice ((nc - 1 - j) * esz) esz row.
Proof.
  intros H Hj. unfold flip_row. apply slice_concat.
  - apply flip_row_pixels_uniform, H.
  - rewrite list_lookup_fmap, lookup_seq_lt by assumption. reflexivity.
Qed.

Lemma flip_row_involutive esz nc row :
  length row = nc * esz -> flip_row esz nc (flip_row esz nc row) = row.
Proof.
  intros H. unfold flip_row at 1.
  transitivity (concat ((fun j => slice (j * esz) esz row) <$> seq 0 nc));
    [| rewrite concat_slices; apply take_ge; lia].
  f_equal. apply list_eq. intros j. rewrite !list_lookup_fmap.
  destruct (decide (j < nc)) as [Hj|Hj].
  - rewrite lookup_seq_lt by assumption. simpl. f_equal.
    rewrite flip_row_pixel by lia. do 2 f_equal. lia.
  - rewrite lookup_seq_ge by lia. reflexivity.
Qed.

(** *** All rows *)

Lemma length_flipHoriz src sstep nr nc esz :
  length (flipHoriz src sstep nr nc esz) = nr.
Proof. unfold flipHoriz. rewrite length_fmap. apply length_read_rows. Qed.

Lemma flipHoriz_uniform src sstep nr nc esz :
  nc * esz <= sstep -> length src = nr * sstep ->
  Forall (fun x => length x = nc * esz) (flipHoriz src sstep nr nc esz).
Proof.
  intros Hs Hl. unfold flipHoriz. apply Forall_fmap.
  eapply Forall_impl; [apply (read_rows_uniform src sstep (nc * esz) nr Hs Hl) |].
  intros row Hrow. unfold compose. cbv beta in Hrow.
  apply length_flip_row. lia.
Qed.

Lemma length_concat_flipHoriz src sstep nr nc esz :
  nc * esz <= sstep -> length src = nr * sstep ->
  length (concat (flipHoriz src sstep nr nc esz)) = nr * (nc * esz).
Proof.
  intros Hs Hl.
  rewrite (length_concat_uniform (nc * esz)) by (apply flipHoriz_uniform; assumption).
  rewrite length_flipHoriz. reflexivity.
Qed.

(** Byte [k] of pixel [j] of row [i] of the flipped buffer is byte [k] of
    pixel [nc - 1 - j] of row [i] of the source. *)
Lemma lookup_concat_flipHoriz src sstep nr nc esz i j k :
  nc * esz <= sstep -> length src = nr * sstep ->
  i < nr -> j < nc -> k < esz ->
  concat (flipHoriz src sstep nr nc esz) !! (i * (nc * esz) + (j * esz + k))
  = src !! (i * sstep + ((nc - 1 - j) * esz + k)).
Proof.
  intros Hs Hl Hi Hj Hk.
  assert (Hrow : length (read_row src sstep (nc * esz) i) = nc * esz).
  { unfold read_row. apply length_slice. nia. }
  rewrite (lookup_concat_uniform (nc * esz) _ i
             (flip_row esz nc (read_row src sstep (nc * esz) i))).
  - rewrite <- (lookup_slice (j * esz) esz) by assumption.
    rewrite flip_row_pixel by lia.
    rewrite lookup_slice by assumption.
    unfold read_row. rewrite lookup_slice by nia. reflexivity.
  - apply flipHoriz_uniform; assumption.
  - unfold flipHoriz, read_rows.
    rewrite !list_lookup_fmap, lookup_seq_lt by assumption. reflexivity.
  - nia.
Qed.

End slices.

Lemma CV_MAKETYPE_val depth cn :
  0 <= depth < CV_DEPTH_MAX -> CV_MAKETYPE depth cn = depth + 8 * (cn - 1).
Proof.
  intros Hd. unfold CV_MAKETYPE, CV_MAT_DEPTH, CV_MAT_DEPTH_MASK, CV_CN_SHIFT.
  change CV_DEPTH_MAX with 8 in *.
  rewrite Z.shiftl_mul_pow2 by lia.
  change (8 - 1) with (Z.ones 3). rewrite Z.land_ones by lia.
  rewrite Z.mod_small by lia. change (2 ^ 3) with 8. lia.
Qed.

Lemma CV_MAKETYPE_inj d1 c1 d2 c2 :
  0 <= d1 < CV_DEPTH_MAX -> 0 <= d2 < CV_DEPTH_MAX ->
  CV_MAKETYPE d1 c1 = CV_MAKETYPE d2 c2 -> d1 = d2 /\ c1 = c2.
Proof.
  intros H1 H2. rewrite !CV_MAKETYPE_val by assumption.
  change CV_DEPTH_MAX with 8 in *. lia.
Qed.

Lemma mat_type2encoding_throws mat_type :
  ~ supported mat_type -> mat_type2encoding mat_type = Throw UnsupportedEncoding.
Proof.
  intros Hn. unfold mat_type2encoding.
  destruct (Z.eqb_spec mat_type CV_8UC1); [unfold supported in Hn; tauto |].
  destruct (Z.eqb_spec mat_type CV_8UC3); [unfold supported in Hn; tauto |].
  destruct (Z.eqb_spec mat_type CV_16SC1); [unfold supported in Hn; tauto |].
  destruct (Z.eqb_spec mat_type CV_8UC4); [unfold supported in Hn; tauto |].
  reflexivity.
Qed.

Lemma mat_type2encoding_supported mat_type :
  supported mat_type -> exists enc, mat_type2encoding mat_type = Ok enc.
Proof. intros [->|[->|[->| ->]]]; eexists; reflexivity. Qed.

Lemma mat_type2encoding_Ok_supported mat_type enc :
  mat_type2encoding mat_type = Ok enc -> supported mat_type.
Proof.
  unfold mat_type2encoding, supported.
  destruct (Z.eqb_spec mat_type CV_8UC1); [tauto |].
  destruct (Z.eqb_spec mat_type CV_8UC3); [tauto |].
  destruct (Z.eqb_spec mat_type CV_16SC1); [tauto |].
  destruct (Z.eqb_spec mat_type CV_8UC4); [tauto |].
  discriminate.
Qed.


(** ** Type codes *)

Lemma CV_MAT_DEPTH_range t : 0 <= CV_MAT_DEPTH t < 8.
Proof.
  unfold CV_MAT_DEPTH, CV_MAT_DEPTH_MASK. change (CV_DEPTH_MAX - 1) with (Z.ones 3).
  rewrite Z.land_ones by lia. change (2 ^ 3) with 8.
  apply Z.mod_pos_bound. lia.
Qed.

Lemma CV_ELEM_SIZE1_pos t : 0 < CV_ELEM_SIZE1 t.
Proof.
  unfold CV_ELEM_SIZE1. pose proof (CV_MAT_DEPTH_range t) as Hd.
  assert (Hc : CV_MAT_DEPTH t = 0 \/ CV_MAT_DEPTH t = 1 \/ CV_MAT_DEPTH t = 2 \/
               CV_MAT_DEPTH t = 3 \/ CV_MAT_DEPTH t = 4 \/ CV_MAT_DEPTH t = 5 \/
               CV_MAT_DEPTH t = 6 \/ CV_MAT_DEPTH t = 7) by lia.
  destruct Hc as [E|[E|[E|[E|[E|[E|[E|E]]]]]]]; rewrite E; reflexivity.
Qed.

Lemma CV_MAT_CN_pos t : 0 < CV_MAT_CN t.
Proof.
  unfold CV_MAT_CN.
  assert (0 <= Z.shiftr (Z.land t CV_MAT_CN_MASK) CV_CN_SHIFT); [| lia].
  apply Z.shiftr_nonneg, Z.land_nonneg. right. discriminate.
Qed.

Lemma CV_ELEM_SIZE_pos t : 0 < CV_ELEM_SIZE t.
Proof.
  unfold CV_ELEM_SIZE. apply Z.mul_pos_pos;
    [apply CV_MAT_CN_pos | apply CV_ELEM_SIZE1_pos].
Qed.

(** ** Creating and filling matrices *)

Lemma length_nil_inv (l : list byte) : length l = 0%nat -> l = [].
Proof. destruct l; [reflexivity | discriminate]. Qed.

Lemma Mat_create_put_rows h m r c t rs :
  0 <= r -> 0 <= c -> ok_Mat h m ->
  length rs = Z.to_nat r ->
  Forall (fun x => length x = Z.to_nat (c * CV_ELEM_SIZE t)) rs ->
  forall h1 m1, Mat_create h m r c t = (h1, m1) ->
  Mat.rows m1 = r /\ Mat.cols m1 = c /\ Mat.type m1 = t /\
  Mat.step m1 = c * CV_ELEM_SIZE t /\
  Mat_bytes (Mat_put_rows h1 m1 rs) m1 = concat rs /\
  valid (Mat_put_rows h1 m1 rs) (Mat.data m1) /\
  (forall l, Mat.data m1 = Some l -> Mat.data m = Some l \/ l = length h) /\
  (forall l, (l < length h)%nat -> Mat.data m1 <> Some l ->
             Mat_put_rows h1 m1 rs !! l = h !! l) /\
  (forall p, valid h p ->
             valid (Mat_put_rows h1 m1 rs) p /\
             length (deref (Mat_put_rows h1 m1 rs) p) = length (deref h p)).
Proof.
  intros Hr Hc ((Hmr & Hmc & Hms & Hml) & Hcont & Hval) Hlen Hrs h1 m1 Hcreate.
  pose proof (CV_ELEM_SIZE_pos t) as He.
  assert (Hcat : length (concat rs)
                 = (Z.to_nat r * Z.to_nat (c * CV_ELEM_SIZE t))%nat).
  { rewrite (length_concat_uniform _ _ Hrs), Hlen. reflexivity. }
  unfold Mat_create in Hcreate.
  destruct (_ && _) eqn:Hsame.
  - (* the header already has the shape: its storage is written in place *)
    injection Hcreate as <- <-.
    rewrite !andb_true_iff, !Z.eqb_eq, bool_decide_eq_true in Hsame.
    destruct Hsame as (((Er & Ec) & Et) & [l El]).
    specialize (Hcont (ex_intro _ l El)).
    unfold continuous, Mat_elemSize in Hcont. rewrite Ec, Et in Hcont.
    assert (Hnew : write_rows (Mat_bytes h m) (Z.to_nat (Mat.step m)) rs
                   = concat rs).
    { rewrite Hcont, write_rows_tight by assumption.
      rewrite drop_ge, app_nil_r; [reflexivity |].
      rewrite Hml, Er, Hcont, Hlen, Z2Nat.inj_mul; lia. }
    unfold Mat_put_rows. rewrite Hnew.
    unfold Mat_bytes, valid in *. rewrite El in *. simpl in *.
    repeat split; try assumption.
    + rewrite list_lookup_insert_eq by assumption. reflexivity.
    + rewrite length_insert. assumption.
    + intros l' [= ->]. left. reflexivity.
    + intros l' _ Hne. apply list_lookup_insert_ne. congruence.
    + destruct p as [l'|]; simpl in *; [rewrite length_insert |]; done.
    + destruct p as [l'|]; simpl in *; [| reflexivity].
      destruct (decide (l = l')) as [<-|Hne].
      * rewrite list_lookup_insert_eq by assumption. simpl.
        rewrite Hcat, Hml, Er, Hcont, Z2Nat.inj_mul; lia.
      * rewrite list_lookup_insert_ne by assumption. reflexivity.
  - clear Hsame. destruct (0 <? r * c) eqn:Hpos.
    + (* fresh storage *)
      injection Hcreate as <- <-.
      assert (Hnew : write_rows (replicate (Z.to_nat (r * (c * CV_ELEM_SIZE t))) x00)
                       (Z.to_nat (c * CV_ELEM_SIZE t)) rs = concat rs).
      { rewrite write_rows_tight by assumption.
        rewrite drop_ge, app_nil_r; [reflexivity |].
        rewrite length_replicate, Hlen, Z2Nat.inj_mul; lia. }
      unfold Mat_put_rows, Mat_bytes. simpl.
      rewrite list_lookup_middle by reflexivity. simpl. rewrite Hnew.
      repeat split.
      * rewrite list_lookup_insert_eq by (rewrite length_app; simpl; lia).
        reflexivity.
      * rewrite length_insert, length_app. simpl. lia.
      * intros l' [= <-]. right. reflexivity.
      * intros l' Hl' _. rewrite list_lookup_insert_ne by lia.
        apply lookup_app_l, Hl'.
      * destruct p as [l'|]; simpl in *; [| done].
        rewrite length_insert, length_app. simpl. lia.
      * destruct p as [l'|]; simpl in *; [| reflexivity].
        rewrite list_lookup_insert_ne by lia.
        rewrite lookup_app_l by assumption. reflexivity.
    + (* no element: no storage *)
      injection Hcreate as <- <-.
      apply Z.ltb_ge in Hpos.
      unfold Mat_put_rows, Mat_bytes. simpl.
      repeat split; try done.
      symmetry. apply length_nil_inv. rewrite Hcat, <- Z2Nat.inj_mul by lia.
      replace (r * (c * CV_ELEM_SIZE t)) with ((r * c) * CV_ELEM_SIZE t) by lia.
      assert (r * c = 0) as -> by nia. reflexivity.
Qed.

Lemma Mat_create_shape h m r c t h1 m1 :
  Mat_create h m r c t = (h1, m1) ->
  Mat.rows m1 = r /\ Mat.cols m1 = c /\ Mat.type m1 = t /\
  (0 < r * c -> is_Some (Mat.data m1)).
Proof.
  unfold Mat_create. destruct (_ && _) eqn:Hsame.
  - intros [= <- <-].
    rewrite !andb_true_iff, !Z.eqb_eq, bool_decide_eq_true in Hsame.
    tauto.
  - destruct (0 <? r * c) eqn:Hpos; intros [= <- <-]; simpl.
    + eauto.
    + apply Z.ltb_ge in Hpos. repeat split; try reflexivity. lia.
Qed.

Lemma ok_Mat_default h : ok_Mat h Mat_default.
Proof. split_and!; simpl; done. Qed.

(** Writing through one header keeps every other header usable. *)
Lemma ok_Mat_preserved (h h' : list (list byte)) m :
  (forall p, valid h p -> valid h' p /\ length (deref h' p) = length (deref h p)) ->
  ok_Mat h m -> ok_Mat h' m.
Proof.
  intros Hp ((Hr & Hc & Hs & Hl) & Hcont & Hval).
  destruct (Hp _ Hval) as [Hval' Hlen'].
  split_and!; try assumption. split_and!; try assumption.
  unfold Mat_bytes in *. congruence.
Qed.

(** ** [cap >> frame] *)

Lemma VideoCapture_read_Some h frame p h1 frame1 :
  ok_Mat h frame -> wf_picture p ->
  VideoCapture_read h frame (Some p) = (h1, frame1) ->
  Mat.rows frame1 = p_rows p /\ Mat.cols frame1 = p_cols p /\
  Mat.type frame1 = p_type p /\
  Mat_bytes h1 frame1 = p_data p /\
  ok_Mat h1 frame1 /\ continuous frame1 /\
  (forall l, Mat.data frame1 = Some l -> Mat.data frame = Some l \/ l = length h) /\
  (forall q, valid h q ->
             valid h1 q /\ length (deref h1 q) = length (deref h q)).
Proof.
  intros Hok (Hr & Hc & Hb & Hl) Hread. unfold VideoCapture_read in Hread.
  destruct (Mat_create h frame (p_rows p) (p_cols p) (p_type p))
    as [h0 f0] eqn:Hcreate.
  injection Hread as <- <-.
  pose proof (CV_ELEM_SIZE_pos (p_type p)) as He.
  set (n := Z.to_nat (p_cols p * CV_ELEM_SIZE (p_type p))) in *.
  assert (Hln : length (p_data p) = (Z.to_nat (p_rows p) * n)%nat).
  { rewrite Hl. unfold n. apply Z2Nat.inj_mul; lia. }
  destruct (Mat_create_put_rows h frame (p_rows p) (p_cols p) (p_type p)
              (read_rows (p_data p) n n (Z.to_nat (p_rows p))) Hr Hc Hok)
    with (h1 := h0) (m1 := f0)
    as (Er & Ec & Et & Es & Eb & Ev & Eloc & _ & Ekeep);
    [apply length_read_rows
    | apply read_rows_uniform; [lia | assumption]
    | assumption |].
  rewrite concat_read_rows in Eb by assumption.
  assert (Hcont : continuous f0).
  { unfold continuous, Mat_elemSize. rewrite Es, Ec, Et. reflexivity. }
  split_and!; try assumption; try lia; try (intros; apply Ekeep; assumption).
  split_and!; try assumption; try lia; try done. split_and!; try lia.
  - unfold Mat_elemSize. rewrite Ec, Et, Es. lia.
  - rewrite Eb, Hl, Er, Es. reflexivity.
Qed.

(** ** [cv::flip] *)

Lemma cv_flip_spec h src dst h2 dst2 :
  wf_Mat h src -> ok_Mat h dst ->
  cv_flip h src dst = (h2, dst2) ->
  Mat.rows dst2 = Mat.rows src /\ Mat.cols dst2 = Mat.cols src /\
  Mat.type dst2 = Mat.type src /\
  Mat.step dst2 = Mat.cols src * Mat_elemSize src /\
  Mat_bytes h2 dst2 =
    concat (flipHoriz (Mat_bytes h src) (Z.to_nat (Mat.step src))
              (Z.to_nat (Mat.rows src)) (Z.to_nat (Mat.cols src))
              (Z.to_nat (Mat_elemSize src))) /\
  ok_Mat h2 dst2 /\ continuous dst2 /\
  (forall l, Mat.data dst2 = Some l -> Mat.data dst = Some l \/ l = length h) /\
  (forall l, (l < length h)%nat -> Mat.data dst2 <> Some l -> h2 !! l = h !! l) /\
  (forall q, valid h q ->
             valid h2 q /\ length (deref h2 q) = length (deref h q)).
Proof.
  intros (Hr & Hc & Hs & Hl) Hok Hflip. unfold cv_flip in Hflip.
  destruct (Mat_create h dst (Mat.rows src) (Mat.cols src) (Mat.type src))
    as [h0 d0] eqn:Hcreate.
  injection Hflip as <- <-.
  pose proof (CV_ELEM_SIZE_pos (Mat.type src)) as He.
  unfold Mat_elemSize in *.
  set (esz := CV_ELEM_SIZE (Mat.type src)) in *.
  assert (Hn : Z.to_nat (Mat.cols src * esz)
               = (Z.to_nat (Mat.cols src) * Z.to_nat esz)%nat)
    by (apply Z2Nat.inj_mul; lia).
  assert (Hfit : (Z.to_nat (Mat.cols src) * Z.to_nat esz
                  <= Z.to_nat (Mat.step src))%nat) by lia.
  assert (Hlen : length (Mat_bytes h src)
                 = (Z.to_nat (Mat.rows src) * Z.to_nat (Mat.step src))%nat).
  { rewrite Hl. apply Z2Nat.inj_mul; lia. }
  destruct (Mat_create_put_rows h dst (Mat.rows src) (Mat.cols src)
              (Mat.type src)
              (flipHoriz (Mat_bytes h src) (Z.to_nat (Mat.step src))
                 (Z.to_nat (Mat.rows src)) (Z.to_nat (Mat.cols src))
                 (Z.to_nat esz)) Hr Hc Hok)
    with (h1 := h0) (m1 := d0)
    as (Er & Ec & Et & Es & Eb & Ev & Eloc & Eframe & Ekeep);
    [apply length_flipHoriz
    | fold esz; rewrite Hn; apply flipHoriz_uniform; assumption
    | assumption |].
  fold esz in Es.
  assert (Hcont : continuous d0).
  { unfold continuous, Mat_elemSize. rewrite Es, Ec, Et. reflexivity. }
  split_and!; try assumption; try lia; try (intros; apply Ekeep; assumption).
  split_and!; try assumption; try lia; try done. split_and!; try lia.
  - unfold Mat_elemSize. rewrite Ec, Et, Es. fold esz. lia.
  - rewrite Eb, Er, Es, length_concat_flipHoriz by assumption.
    rewrite <- Hn. symmetry. apply Z2Nat.inj_mul; lia.
Qed.

(** ** The message builder *)

Lemma length_resize v n : length (resize v n) = n.
Proof.
  unfold resize. rewrite length_app, length_take, length_replicate. lia.
Qed.

Lemma memcpy_resize v src n :
  length src = n -> memcpy (resize v n) src n = src.
Proof.
  intros H. unfold memcpy.
  rewrite take_ge by lia.
  rewrite drop_ge by (rewrite length_resize; lia).
  apply app_nil_r.
Qed.

Lemma convert_frame_to_message_Ok h m id msg0 enc :
  mat_type2encoding (Mat.type m) = Ok enc ->
  convert_frame_to_message h m id msg0 =
    Ok (Image.mk (to_string id) (to_uint32 (Mat.rows m)) (to_uint32 (Mat.cols m))
          enc (Image.is_bigendian msg0) (to_uint32 (Mat.step m))
          (let size :=
             Z.to_nat (to_size_t (Mat.step m * to_size_t (Mat.rows m))) in
           memcpy (resize (Image.data msg0) size) (Mat_bytes h m) size)).
Proof. intros H. unfold convert_frame_to_message. rewrite H. reflexivity. Qed.

Lemma convert_frame_to_message_Throw h m id msg0 e :
  mat_type2encoding (Mat.type m) = Throw e ->
  convert_frame_to_message h m id msg0 = Throw e.
Proof. intros H. unfold convert_frame_to_message. rewrite H. reflexivity. Qed.

Lemma copy_size h m :
  wf_Mat h m -> Mat.rows m * Mat.step m < 2 ^ 64 ->
  Z.to_nat (to_size_t (Mat.step m * to_size_t (Mat.rows m)))
  = length (Mat_bytes h m).
Proof.
  intros (Hr & Hc & Hs & Hl) Hb. rewrite Hl. f_equal. unfold to_size_t.
  pose proof (CV_ELEM_SIZE_pos (Mat.type m)). unfold Mat_elemSize in Hs.
  rewrite Z.mul_mod_idemp_r by lia.
  rewrite Z.mod_small by nia. lia.
Qed.

(** ** The two matrices of the loop *)

Lemma capture_step st p h1 frame1 :
  inv st -> wf_picture p ->
  VideoCapture_read (mem st) (frame st) (Some p) = (h1, frame1) ->
  Mat_empty frame1 = negb (0 <? p_rows p * p_cols p) /\
  Mat.rows frame1 = p_rows p /\ Mat.cols frame1 = p_cols p /\
  Mat.type frame1 = p_type p /\
  Mat_bytes h1 frame1 = p_data p /\
  ok_Mat h1 frame1 /\ continuous frame1 /\ ok_Mat h1 (flipped_frame st) /\
  separate (Mat.data frame1) (Mat.data (flipped_frame st)).
Proof.
  intros (Hf & Hff & Hsep) Hp Hread.
  destruct (VideoCapture_read_Some _ _ _ _ _ Hf Hp Hread)
    as (Er & Ec & Et & Eb & Hok1 & Hcont1 & Eloc & Ekeep).
  assert (Hsome : 0 < p_rows p * p_cols p -> is_Some (Mat.data frame1)).
  { unfold VideoCapture_read in Hread.
    destruct (Mat_create _ _ _ _ _) as [h0 f0] eqn:Hcreate.
    injection Hread as _ <-.
    apply (Mat_create_shape _ _ _ _ _ _ _ Hcreate). }
  split_and!; try assumption.
  - unfold Mat_empty, Mat_total. rewrite Er, Ec.
    destruct (Z.ltb_spec 0 (p_rows p * p_cols p)) as [Hpos|Hle]; simpl.
    + destruct (Hsome Hpos) as [l ->]. apply Z.eqb_neq. lia.
    + destruct Hp as (? & ? & _).
      destruct (Mat.data frame1); [apply Z.eqb_eq; nia | reflexivity].
  - eapply ok_Mat_preserved; [exact Ekeep | exact Hff].
  - intros l Hl Hl'. destruct (Eloc l Hl) as [Hold | ->].
    + exact (Hsep l Hold Hl').
    + destruct Hff as (_ & _ & Hv). rewrite Hl' in Hv. simpl in Hv. lia.
Qed.

Lemma flip_step h1 frame1 ff h2 flipped1 :
  ok_Mat h1 frame1 -> continuous frame1 -> ok_Mat h1 ff ->
  separate (Mat.data frame1) (Mat.data ff) ->
  cv_flip h1 frame1 ff = (h2, flipped1) ->
  Mat_bytes h2 frame1 = Mat_bytes h1 frame1 /\
  ok_Mat h2 frame1 /\ ok_Mat h2 flipped1 /\
  separate (Mat.data frame1) (Mat.data flipped1) /\
  Mat.rows flipped1 = Mat.rows frame1 /\ Mat.cols flipped1 = Mat.cols frame1 /\
  Mat.type flipped1 = Mat.type frame1 /\ Mat.step flipped1 = Mat.step frame1 /\
  Mat_bytes h2 flipped1 =
    concat (flipHoriz (Mat_bytes h1 frame1) (Z.to_nat (Mat.step frame1))
              (Z.to_nat (Mat.rows frame1)) (Z.to_nat (Mat.cols frame1))
              (Z.to_nat (Mat_elemSize frame1))).
Proof.
  intros Hok1 Hcont1 Hokf Hsep Hflip.
  destruct (cv_flip_spec _ _ _ _ _ (proj1 Hok1) Hokf Hflip)
    as (Er & Ec & Et & Es & Eb & Hok2 & Hcont2 & Eloc & Eframe & Ekeep).
  assert (Hsep2 : separate (Mat.data frame1) (Mat.data flipped1)).
  { intros l Hl Hl'. destruct (Eloc l Hl') as [Hold | ->].
    - exact (Hsep l Hl Hold).
    - destruct Hok1 as (_ & _ & Hv). rewrite Hl in Hv. simpl in Hv. lia. }
  split_and!; try assumption.
  2: eapply ok_Mat_preserved; [exact Ekeep | exact Hok1].
  - unfold Mat_bytes. destruct (Mat.data frame1) as [l|] eqn:Hl; [| reflexivity].
    simpl. rewrite Eframe; [reflexivity | |].
    + destruct Hok1 as (_ & _ & Hv). rewrite Hl in Hv. exact Hv.
    + intros Hl'. exact (Hsep2 l eq_refl Hl').
  - rewrite Es. symmetry. exact Hcont1.
Qed.

(** ** One pass of the loop *)

Lemma spin_some_snoc st q b :
  spin_some st (q ++ [b]) = callback (spin_some st q) b.
Proof. unfold spin_some. apply fold_left_app. Qed.

Lemma spin_some_spec st q :
  is_flipped (spin_some st q) = default (is_flipped st) (last q) /\
  frame (spin_some st q) = frame st /\
  flipped_frame (spin_some st q) = flipped_frame st /\
  i (spin_some st q) = i st /\
  mem (spin_some st q) = mem st.
Proof.
  induction q as [|b q IH] using rev_ind; [done |].
  rewrite spin_some_snoc, last_snoc. simpl. tauto.
Qed.

Lemma spin_some_i st q : i (spin_some st q) = i st.
Proof. apply spin_some_spec. Qed.

Lemma spin_some_is_flipped st q :
  is_flipped (spin_some st q) = default (is_flipped st) (last q).
Proof. apply spin_some_spec. Qed.

Lemma inv_spin_some st q : inv st -> inv (spin_some st q).
Proof.
  destruct (spin_some_spec st q) as (_ & Ef & Eff & _ & Em).
  unfold inv. rewrite Ef, Eff, Em. tauto.
Qed.

Lemma loop_body_eq show_camera st inp h1 frame1 :
  VideoCapture_read (mem st) (frame st) (grabbed inp) = (h1, frame1) ->
  loop_body show_camera st inp =
    if Mat_empty frame1
    then (Continue (spin_some (mkState (is_flipped st) frame1 (flipped_frame st)
                                 (i st) h1) (pending inp)),
          [EvSpinSome (pending inp); EvSleep])
    else
      let '(h2, flipped1) :=
        if is_flipped st then cv_flip h1 frame1 (flipped_frame st)
        else (h1, flipped_frame st) in
      match convert_frame_to_message h2
              (if is_flipped st then flipped1 else frame1) (i st) Image_default
      with
      | Throw e => (Uncaught e, [])
      | Ok msg =>
          (Continue (spin_some (mkState (is_flipped st) frame1 flipped1
                                  (to_size_t (i st + 1)) h2) (pending inp)),
           (if show_camera
            then [EvImshow "cam2image" frame1 (Mat_bytes h2 frame1); EvWaitKey 1]
            else [])
           ++ [EvPublish msg; EvSpinSome (pending inp); EvSleep])
      end.
Proof.
  intros Hread. unfold loop_body. rewrite Hread.
  destruct (Mat_empty frame1); [reflexivity |]. simpl.
  destruct (is_flipped st); simpl; [| reflexivity].
  destruct (cv_flip h1 frame1 (flipped_frame st)) as [h2 flipped1].
  reflexivity.
Qed.

Lemma published_shown (show_camera : bool) m px msg q :
  published ((if show_camera then [EvImshow "cam2image" m px; EvWaitKey 1] else [])
             ++ [EvPublish msg; EvSpinSome q; EvSleep]) = [msg].
Proof. destruct show_camera; reflexivity. Qed.

Lemma convert_frame_to_message_frame_id h m id msg0 msg :
  convert_frame_to_message h m id msg0 = Ok msg ->
  Image.frame_id msg = to_string id /\ supported (Mat.type m).
Proof.
  unfold convert_frame_to_message.
  destruct (mat_type2encoding (Mat.type m)) as [enc|] eqn:Henc; [| discriminate].
  intros [= <-]. split; [reflexivity |].
  eapply mat_type2encoding_Ok_supported, Henc.
Qed.

(** A pass either publishes nothing and leaves the counter alone, or
    publishes one message that carries the counter and steps it by one. *)
Lemma loop_body_counter show_camera st inp o evs :
  loop_body show_camera st inp = (o, evs) ->
  (published evs = [] /\ forall st', o = Continue st' -> i st' = i st) \/
  (exists msg st', o = Continue st' /\ published evs = [msg] /\
                   Image.frame_id msg = to_string (i st) /\
                   i st' = to_size_t (i st + 1)).
Proof.
  destruct (VideoCapture_read (mem st) (frame st) (grabbed inp))
    as [h1 frame1] eqn:Hread.
  rewrite (loop_body_eq _ _ _ _ _ Hread).
  destruct (Mat_empty frame1).
  - intros [= <- <-]. left. split; [reflexivity |].
    intros st' [= <-]. rewrite spin_some_i. reflexivity.
  - destruct (if is_flipped st then _ else _) as [h2 flipped1].
    destruct (convert_frame_to_message _ _ _ _) as [msg|e] eqn:Hconv.
    + intros [= <- <-]. right. eexists _, _. split; [reflexivity |].
      rewrite published_shown. split; [reflexivity |].
      split; [eapply convert_frame_to_message_frame_id, Hconv |].
      rewrite spin_some_i. reflexivity.
    + intros [= <- <-]. left. split; [reflexivity |]. discriminate.
Qed.

Lemma loop_body_None show_camera st inp :
  grabbed inp = None ->
  loop_body show_camera st inp =
    (Continue (spin_some (mkState (is_flipped st) (Mat_release (frame st))
                            (flipped_frame st) (i st) (mem st)) (pending inp)),
     [EvSpinSome (pending inp); EvSleep]).
Proof.
  intros Hg. rewrite (loop_body_eq _ _ _ (mem st) (Mat_release (frame st)));
    [reflexivity | rewrite Hg; reflexivity].
Qed.

Lemma ok_Mat_release h m : ok_Mat h m -> ok_Mat h (Mat_release m).
Proof.
  intros ((Hr & Hc & Hs & Hl) & _ & _).
  pose proof (CV_ELEM_SIZE_pos (Mat.type m)). unfold Mat_elemSize in Hs.
  split_and!; simpl; try done. split_and!; simpl; try done. nia.
Qed.

(** What a pass does with a grabbed picture that has pixels. *)
Lemma loop_body_grab show_camera st inp p :
  inv st -> grabbed inp = Some p -> wf_picture p -> 0 < p_rows p * p_cols p ->
  exists h1 frame1 h2 flipped1,
    VideoCapture_read (mem st) (frame st) (Some p) = (h1, frame1) /\
    (if is_flipped st then cv_flip h1 frame1 (flipped_frame st)
     else (h1, flipped_frame st)) = (h2, flipped1) /\
    Mat_bytes h1 frame1 = p_data p /\
    Mat_bytes h2 frame1 = p_data p /\
    separate (Mat.data frame1) (Mat.data flipped1) /\
    is_Some (Mat.data frame1) /\
    (is_flipped st = true -> Mat_bytes h2 flipped1 = p_data (mirror p)) /\
    (forall b n, inv (mkState b frame1 flipped1 n h2)) /\
    loop_body show_camera st inp =
      match mat_type2encoding (p_type p) with
      | Throw e => (Uncaught e, [])
      | Ok enc =>
          (Continue (spin_some (mkState (is_flipped st) frame1 flipped1
                                  (to_size_t (i st + 1)) h2) (pending inp)),
           (if show_camera
            then [EvImshow "cam2image" frame1 (p_data p); EvWaitKey 1]
            else [])
           ++ [EvPublish
                 (Image.mk (to_string (i st)) (to_uint32 (p_rows p))
                    (to_uint32 (p_cols p)) enc false
                    (to_uint32 (p_cols p * CV_ELEM_SIZE (p_type p)))
                    (p_data (if is_flipped st then mirror p else p)));
               EvSpinSome (pending inp); EvSleep])
      end.
Proof.
  intros Hinv Hg Hp Hpos.
  destruct (VideoCapture_read (mem st) (frame st) (Some p))
    as [h1 frame1] eqn:Hread.
  destruct (capture_step _ _ _ _ Hinv Hp Hread)
    as (Hne & Er & Ec & Et & Eb & Hok1 & Hcont1 & Hokf & Hsep).
  assert (Hpos' : (0 <? p_rows p * p_cols p) = true) by (apply Z.ltb_lt, Hpos).
  rewrite Hpos' in Hne. simpl in Hne.
  assert (Hsome : is_Some (Mat.data frame1)).
  { unfold Mat_empty in Hne. destruct (Mat.data frame1); [eauto | discriminate]. }
  destruct Hp as (Hr & Hc & Hb & Hl).
  pose proof (CV_ELEM_SIZE_pos (p_type p)) as He.
  assert (Es : Mat.step frame1 = p_cols p * CV_ELEM_SIZE (p_type p)).
  { rewrite Hcont1. unfold Mat_elemSize. rewrite Ec, Et. reflexivity. }
  rewrite <- Hg in Hread.
  rewrite (loop_body_eq _ _ _ _ _ Hread), Hne. rewrite Hg in Hread.
  exists h1, frame1.
  destruct (is_flipped st) eqn:Hfl.
  - (* flipped *)
    destruct (cv_flip h1 frame1 (flipped_frame st)) as [h2 flipped1] eqn:Hflip.
    destruct (flip_step _ _ _ _ _ Hok1 Hcont1 Hokf Hsep Hflip)
      as (Eb2 & Hok2 & Hokf2 & Hsep2 & Fr & Fc & Ft & Fs & Fb).
    assert (Hmirror : Mat_bytes h2 flipped1 = p_data (mirror p)).
    { rewrite Fb, Eb, Es, Er, Ec. unfold Mat_elemSize. rewrite Et. simpl.
      rewrite Z2Nat.inj_mul by lia. reflexivity. }
    exists h2, flipped1.
    split_and!; try done; try congruence.
    destruct (mat_type2encoding (p_type p)) as [enc|e] eqn:Henc.
    + rewrite (convert_frame_to_message_Ok _ _ _ _ enc) by congruence.
      rewrite Eb2, Eb. do 5 f_equal; try congruence.
      rewrite <- Hmirror. apply memcpy_resize. symmetry.
      apply copy_size; [apply Hokf2 |].
      rewrite Fr, Fs, Er, Es. assumption.
    + rewrite (convert_frame_to_message_Throw _ _ _ _ e) by congruence.
      reflexivity.
  - (* passed through *)
    exists h1, (flipped_frame st).
    split_and!; try done.
    destruct (mat_type2encoding (p_type p)) as [enc|e] eqn:Henc.
    + rewrite (convert_frame_to_message_Ok _ _ _ _ enc) by congruence.
      rewrite Eb. do 5 f_equal; try congruence.
      rewrite <- Eb. apply memcpy_resize. symmetry.
      apply copy_size; [apply Hok1 |].
      rewrite Er, Es. assumption.
    + rewrite (convert_frame_to_message_Throw _ _ _ _ e) by congruence.
      reflexivity.
Qed.

Lemma inv_loop_body show_camera st inp st' evs :
  inv st -> wf_input inp ->
  loop_body show_camera st inp = (Continue st', evs) -> inv st'.
Proof.
  intros Hinv Hwf. unfold wf_input in Hwf.
  destruct (grabbed inp) as [p|] eqn:Hg.
  - destruct (Z.ltb_spec 0 (p_rows p * p_cols p)) as [Hpos|Hle].
    + destruct (loop_body_grab show_camera _ _ _ Hinv Hg Hwf Hpos)
        as (h1 & frame1 & h2 & flipped1 & _ & _ & _ & _ & _ & _ & _ & Hinv' & ->).
      destruct (mat_type2encoding (p_type p)); [| discriminate].
      intros [= <- _]. apply inv_spin_some, Hinv'.
    + destruct (VideoCapture_read (mem st) (frame st) (Some p))
        as [h1 frame1] eqn:Hread.
      destruct (capture_step _ _ _ _ Hinv Hwf Hread)
        as (Hne & _ & _ & _ & _ & Hok1 & _ & Hokf & Hsep).
      assert (Hz : (0 <? p_rows p * p_cols p) = false) by (apply Z.ltb_ge, Hle).
      rewrite Hz in Hne. simpl in Hne. rewrite <- Hg in Hread.
      rewrite (loop_body_eq _ _ _ _ _ Hread), Hne.
      intros [= <- _]. apply inv_spin_some. split_and!; assumption.
  - rewrite (loop_body_None _ _ _ Hg). intros [= <- _].
    apply inv_spin_some. destruct Hinv as (Hf & Hff & Hsep).
    split_and!; simpl; [apply ok_Mat_release, Hf | exact Hff |].
    intros l [=].
Qed.

Lemma inv_init : inv init.
Proof.
  split_and!; simpl; try apply ok_Mat_default. intros l [=].
Qed.

(** ** Runs of the loop *)

Lemma inv_loop show_camera inps :
  forall st st' evs,
    inv st -> Forall wf_input inps ->
    loop show_camera st inps = (Continue st', evs) -> inv st'.
Proof.
  induction inps as [|inp rest IH]; intros st st' evs Hinv Hwf; simpl.
  - intros [= <- _]. exact Hinv.
  - inversion Hwf as [|? ? Hwf1 Hwf2]; subst.
    destruct (loop_body show_camera st inp) as [[st1|e] evs1] eqn:Hbody;
      [| discriminate].
    destruct (loop show_camera st1 rest) as [o evs2] eqn:Hrest.
    intros [= -> _].
    eapply IH; [| exact Hwf2 | exact Hrest].
    eapply inv_loop_body; [exact Hinv | exact Hwf1 | exact Hbody].
Qed.

Lemma loop_body_empty show_camera st inp h1 frame1 :
  VideoCapture_read (mem st) (frame st) (grabbed inp) = (h1, frame1) ->
  Mat_empty frame1 = true ->
  loop_body show_camera st inp =
    (Continue (spin_some (mkState (is_flipped st) frame1 (flipped_frame st)
                            (i st) h1) (pending inp)),
     [EvSpinSome (pending inp); EvSleep]).
Proof. intros Hread He. rewrite (loop_body_eq _ _ _ _ _ Hread), He. reflexivity. Qed.

(** A pass that goes on leaves the flip state at the last drained value. *)
Lemma loop_body_is_flipped show_camera st inp st' evs :
  loop_body show_camera st inp = (Continue st', evs) ->
  is_flipped st' = default (is_flipped st) (last (pending inp)).
Proof.
  destruct (VideoCapture_read (mem st) (frame st) (grabbed inp))
    as [h1 frame1] eqn:Hread.
  rewrite (loop_body_eq _ _ _ _ _ Hread).
  destruct (Mat_empty frame1).
  - intros [= <- _]. rewrite spin_some_is_flipped. reflexivity.
  - destruct (if is_flipped st then _ else _) as [h2 flipped1].
    destruct (convert_frame_to_message _ _ _ _); [| discriminate].
    intros [= <- _]. rewrite spin_some_is_flipped. reflexivity.
Qed.

(** Passes that drain nothing keep the flip state. *)
Lemma loop_quiet show_camera quiet :
  forall st st' evs,
    Forall (fun q => wf_input q /\ pending q = []) quiet ->
    loop show_camera st quiet = (Continue st', evs) ->
    is_flipped st' = is_flipped st.
Proof.
  induction quiet as [|q rest IH]; intros st st' evs Hq; simpl.
  - intros [= <- _]. reflexivity.
  - inversion Hq as [|? ? [_ Hq1] Hq2]; subst.
    destruct (loop_body show_camera st q) as [[st1|e] evs1] eqn:Hbody;
      [| discriminate].
    destruct (loop show_camera st1 rest) as [o evs2] eqn:Hrest.
    intros [= -> _].
    rewrite (IH _ _ _ Hq2 Hrest), (loop_body_is_flipped _ _ _ _ _ Hbody), Hq1.
    reflexivity.
Qed.

Lemma loop_app show_camera inps1 inps2 :
  forall st,
    loop show_camera st (inps1 ++ inps2) =
      match loop show_camera st inps1 with
      | (Continue st1, evs1) =>
          let '(o, evs2) := loop show_camera st1 inps2 in (o, evs1 ++ evs2)
      | (Uncaught e, evs1) => (Uncaught e, evs1)
      end.
Proof.
  induction inps1 as [|inp rest IH]; intros st; simpl.
  - destruct (loop show_camera st inps2). reflexivity.
  - destruct (loop_body show_camera st inp) as [[st1|e] evs1]; [| reflexivity].
    rewrite IH. destruct (loop show_camera st1 rest) as [[st2|e] evs2].
    + destruct (loop show_camera st2 inps2) as [o evs3].
      rewrite app_assoc. reflexivity.
    + reflexivity.
Qed.

Lemma cv_flip_type h src dst h2 dst2 :
  cv_flip h src dst = (h2, dst2) -> Mat.type dst2 = Mat.type src.
Proof.
  unfold cv_flip.
  destruct (Mat_create h dst (Mat.rows src) (Mat.cols src) (Mat.type src))
    as [h0 d0] eqn:Hcreate.
  intros [= _ <-]. apply (Mat_create_shape _ _ _ _ _ _ _ Hcreate).
Qed.

(** * The claims *)

(** ** C1: a frame without an encoding *)

(** C1 (as the code has it).  In a pass in which the capture yields a
    non-empty frame whose type code is none of the four supported ones, the
    [runtime_error] of the encoding resolver leaves the loop body uncaught:
    the pass publishes nothing, does not spin and does not sleep, no later
    pass runs, and [main] ends with the exception, having published only the
    messages of the earlier passes. *)
Theorem C1_unsupported_frame_ends_loop
    show_camera inps st evs0 inp h1 frame1 rest :
  loop show_camera init inps = (Continue st, evs0) ->
  VideoCapture_read (mem st) (frame st) (grabbed inp) = (h1, frame1) ->
  Mat_empty frame1 = false ->
  ~ supported (Mat.type frame1) ->
  loop_body show_camera st inp = (Uncaught UnsupportedEncoding, []) /\
  loop show_camera st (inp :: rest) = (Uncaught UnsupportedEncoding, []) /\
  loop show_camera init (inps ++ inp :: rest)
    = (Uncaught UnsupportedEncoding, evs0) /\
  (show_camera = false ->
   main true (inps ++ inp :: rest) = (Terminated UnsupportedEncoding, evs0)).
Proof.
  intros Hrun Hread Hne Hun.
  assert (Hbody : loop_body show_camera st inp = (Uncaught UnsupportedEncoding, [])).
  { rewrite (loop_body_eq _ _ _ _ _ Hread), Hne.
    destruct (is_flipped st).
    - destruct (cv_flip h1 frame1 (flipped_frame st)) as [h2 flipped1] eqn:Hflip.
      rewrite (convert_frame_to_message_Throw _ _ _ _ UnsupportedEncoding);
        [reflexivity |].
      apply mat_type2encoding_throws.
      rewrite (cv_flip_type _ _ _ _ _ Hflip). exact Hun.
    - rewrite (convert_frame_to_message_Throw _ _ _ _ UnsupportedEncoding);
        [reflexivity |].
      apply mat_type2encoding_throws, Hun. }
  assert (Hloop : loop show_camera st (inp :: rest)
                  = (Uncaught UnsupportedEncoding, [])).
  { simpl. rewrite Hbody. reflexivity. }
  assert (Hall : loop show_camera init (inps ++ inp :: rest)
                 = (Uncaught UnsupportedEncoding, evs0)).
  { rewrite loop_app, Hrun, Hloop, app_nil_r. reflexivity. }
  split_and!; try assumption.
  intros ->. unfold main. simpl negb. cbv iota. rewrite Hall. reflexivity.
Qed.

(** The claim as stated fails: after a first pass that grabs a two-channel
    8-bit picture the loop is left with the exception, and the good frame of
    the second pass is never published. *)
Lemma C1_counterexample :
  let bad := Sample.tick (Some Sample.two_channel) [] in
  let good := Sample.tick (Some Sample.gray2) [] in
  (exists h1 frame1,
     VideoCapture_read (mem init) (frame init) (grabbed bad) = (h1, frame1) /\
     Mat_empty frame1 = false /\ ~ supported (Mat.type frame1)) /\
  (forall st', fst (loop_body false init bad) <> Continue st') /\
  loop false init [bad; good] = (Uncaught UnsupportedEncoding, []) /\
  main true [bad; good] = (Terminated UnsupportedEncoding, []) /\
  published (snd (loop false init [good])) <> [].
Proof.
  split_and!.
  - eexists _, _. split; [reflexivity |]. split; [reflexivity |].
    intros [H|[H|[H|H]]]; vm_compute in H; discriminate.
  - intros st'. vm_compute. discriminate.
  - reflexivity.
  - reflexivity.
  - vm_compute. discriminate.
Qed.

Lemma C1_witness :
  let bad := Sample.tick (Some Sample.two_channel) [true] in
  let good := Sample.tick (Some Sample.gray2) [] in
  loop false init ([] ++ bad :: [good]) = (Uncaught UnsupportedEncoding, []) /\
  main true ([] ++ bad :: [good]) = (Terminated UnsupportedEncoding, []).
Proof.
  intros bad good.
  assert (Hrun : loop false init [] = (Continue init, [])) by reflexivity.
  assert (Hread : VideoCapture_read (mem init) (frame init) (grabbed bad)
                  = ([[x01; x02]], Mat.mk 1 1 8 2 (Some 0%nat)))
    by reflexivity.
  assert (Hne : Mat_empty (Mat.mk 1 1 8 2 (Some 0%nat)) = false) by reflexivity.
  assert (Hun : ~ supported (Mat.type (Mat.mk 1 1 8 2 (Some 0%nat)))).
  { intros [E|[E|[E|E]]]; vm_compute in E; discriminate. }
  destruct (C1_unsupported_frame_ends_loop false [] init [] bad _ _ [good]
              Hrun Hread Hne Hun) as (_ & _ & Hloop & Hmain).
  split; [exact Hloop | exact (Hmain eq_refl)].
Defined.

(** ** C2: the sequence counter *)

Lemma to_size_t_step a k :
  to_size_t (to_size_t (a + 1) + Z.of_nat k) = to_size_t (a + Z.of_nat (S k)).
Proof.
  unfold to_size_t. rewrite Zplus_mod_idemp_l. f_equal. lia.
Qed.

Lemma published_app evs1 evs2 :
  published (evs1 ++ evs2) = published evs1 ++ published evs2.
Proof. apply omap_app. Qed.

(** From a counter value [i st], the messages of a run carry [i st],
    [i st + 1], ... (as [size_t] values), and the counter ends that many
    steps further. *)
Lemma loop_frame_ids show_camera inps :
  forall st o evs,
    0 <= i st < 2 ^ 64 ->
    loop show_camera st inps = (o, evs) ->
    Image.frame_id <$> published evs =
      (fun k => to_string (to_size_t (i st + Z.of_nat k)))
        <$> seq 0 (length (published evs)) /\
    forall st', o = Continue st' ->
      i st' = to_size_t (i st + Z.of_nat (length (published evs))).
Proof.
  induction inps as [|inp rest IH]; intros st o evs Hi; simpl.
  - intros [= <- <-]. simpl. split; [reflexivity |].
    intros st' [= <-]. unfold to_size_t. rewrite Z.add_0_r, Z.mod_small; lia.
  - destruct (loop_body show_camera st inp) as [o1 evs1] eqn:Hbody.
    destruct (loop_body_counter _ _ _ _ _ Hbody)
      as [[Hnone Hkeep] | (msg & st1 & -> & Hone & Hid & Hstep)].
    + destruct o1 as [st1|e].
      * destruct (loop show_camera st1 rest) as [o2 evs2] eqn:Hrest.
        intros [= <- <-]. rewrite published_app, Hnone. simpl.
        specialize (Hkeep st1 eq_refl). rewrite <- Hkeep.
        apply IH; [rewrite Hkeep; exact Hi | exact Hrest].
      * intros [= <- <-]. rewrite Hnone. simpl. split; [reflexivity |].
        discriminate.
    + destruct (loop show_camera st1 rest) as [o2 evs2] eqn:Hrest.
      intros [= <- <-]. rewrite published_app, Hone.
      assert (Hi1 : 0 <= i st1 < 2 ^ 64).
      { rewrite Hstep. unfold to_size_t. apply Z.mod_pos_bound. lia. }
      destruct (IH st1 o2 evs2 Hi1 Hrest) as [Hids Hend].
      set (rest_msgs := published evs2) in *.
      change ([msg] ++ rest_msgs) with (msg :: rest_msgs).
      cbn [length]. rewrite <- cons_seq, !fmap_cons. split.
      * rewrite Hid. f_equal.
        { unfold to_size_t. rewrite Z.add_0_r, Z.mod_small; [reflexivity | lia]. }
        rewrite Hids, <- fmap_S_seq, <- list_fmap_compose.
        apply list_fmap_ext. intros _ k _. simpl. f_equal.
        rewrite Hstep. apply to_size_t_step.
      * intros st' Hst'. rewrite (Hend st' Hst'), Hstep. apply to_size_t_step.
Qed.

(** C2.  The counter starts at 1.  A pass either publishes nothing and
    leaves the counter as it is, or publishes exactly one message, which
    carries the counter as its [frame_id], and steps the counter by one; a
    pass whose frame is empty, as after a failed grab, is of the first kind
    and goes on to the next pass.  Hence in every run the n-th
    published message carries the decimal string of n (for n below the
    range of the [size_t] counter), however many passes published nothing
    in between, and the counter ends at one plus the number of published
    messages. *)
Theorem C2_frame_id_sequence show_camera inps o evs :
  loop show_camera init inps = (o, evs) ->
  i init = 1 /\
  (forall st inp o1 evs1,
     loop_body show_camera st inp = (o1, evs1) ->
     (published evs1 = [] /\ forall st', o1 = Continue st' -> i st' = i st) \/
     (exists msg st', o1 = Continue st' /\ published evs1 = [msg] /\
                      Image.frame_id msg = to_string (i st) /\
                      i st' = to_size_t (i st + 1))) /\
  (forall st inp h1 frame1,
     VideoCapture_read (mem st) (frame st) (grabbed inp) = (h1, frame1) ->
     Mat_empty frame1 = true ->
     exists st', loop_body show_camera st inp
                 = (Continue st', [EvSpinSome (pending inp); EvSleep]) /\
                 published [EvSpinSome (pending inp); EvSleep] = [] /\
                 i st' = i st) /\
  (forall st inp,
     grabbed inp = None ->
     Mat_empty (snd (VideoCapture_read (mem st) (frame st) (grabbed inp))) = true) /\
  (forall n msg,
     published evs !! n = Some msg -> Z.of_nat (S n) < 2 ^ 64 ->
     Image.frame_id msg = to_string (Z.of_nat (S n))) /\
  (forall st',
     o = Continue st' -> Z.of_nat (S (length (published evs))) < 2 ^ 64 ->
     i st' = 1 + Z.of_nat (length (published evs))).
Proof.
  intros Hrun.
  assert (Hi : 0 <= i init < 2 ^ 64) by (simpl; lia).
  destruct (loop_frame_ids _ _ _ _ _ Hi Hrun) as [Hids Hend].
  split_and!.
  - reflexivity.
  - intros st inp o1 evs1. apply loop_body_counter.
  - intros st inp h1 frame1 Hread He. eexists.
    rewrite (loop_body_empty _ _ _ _ _ Hread He).
    split_and!; [reflexivity | reflexivity |].
    rewrite spin_some_i. reflexivity.
  - intros st inp ->. reflexivity.
  - intros n msg Hn Hb.
    assert (Hlt : (n < length (published evs))%nat)
      by (eapply lookup_lt_Some, Hn).
    assert (Hfid : (Image.frame_id <$> published evs) !! n
                   = Some (Image.frame_id msg))
      by (rewrite list_lookup_fmap, Hn; reflexivity).
    rewrite Hids, list_lookup_fmap, lookup_seq_lt in Hfid by assumption.
    simpl in Hfid. injection Hfid as <-. f_equal.
    unfold to_size_t. rewrite Z.mod_small; lia.
  - intros st' Hst' Hb. rewrite (Hend st' Hst'). simpl.
    unfold to_size_t. rewrite Z.mod_small; lia.
Qed.

Lemma C2_witness :
  let run :=
    loop false init
      [Sample.tick (Some Sample.gray2) []; Sample.tick None [];
       Sample.tick None [true]; Sample.tick (Some Sample.bgr2x2) []] in
  Image.frame_id <$> published (snd run) = ["1"; "2"]%string /\
  (forall n msg, published (snd run) !! n = Some msg ->
                 Z.of_nat (S n) < 2 ^ 64 ->
                 Image.frame_id msg = to_string (Z.of_nat (S n))).
Proof.
  intros run. split; [reflexivity |].
  destruct run as [o evs] eqn:Hrun.
  exact (proj1 (proj2 (proj2 (proj2 (proj2
    (C2_frame_id_sequence false _ o evs Hrun)))))).
Defined.

(** ** C3: the message builder *)

Lemma to_string_inj m n : 0 <= m -> 0 <= n -> to_string m = to_string n -> m = n.
Proof.
  intros Hm Hn H. unfold to_string in H.
  apply (inj pretty) in H. lia.
Qed.

(** C3.  For a frame of a supported type whose storage holds [rows] rows of
    [step] bytes and whose shape fits the 32-bit fields of the message, the
    builder returns a message with the frame's [rows], [cols] and [step] as
    [height], [width] and [step], the bytes of the frame's storage as [data]
    ([step * rows] of them, whatever [data] held before), so that the rows
    read back from the message at its [step] are the rows of the frame, and
    the decimal string of the sequence id as [frame_id].  [data] is a vector
    owned by the message: a value, which later writes to the frame's storage
    do not reach. *)
Theorem C3_convert_frame_to_message h frame frame_id msg0 :
  supported (Mat.type frame) ->
  wf_Mat h frame ->
  Mat.rows frame < 2 ^ 31 -> Mat.cols frame < 2 ^ 31 ->
  Mat.step frame < 2 ^ 32 ->
  exists msg,
    convert_frame_to_message h frame frame_id msg0 = Ok msg /\
    Image.height msg = Mat.rows frame /\
    Image.width msg = Mat.cols frame /\
    Image.step msg = Mat.step frame /\
    length (Image.data msg) = Z.to_nat (Mat.step frame * Mat.rows frame) /\
    Image.data msg = Mat_bytes h frame /\
    (forall n k,
       read_rows (Image.data msg) (Z.to_nat (Image.step msg)) n k
       = read_rows (Mat_bytes h frame) (Z.to_nat (Mat.step frame)) n k) /\
    Image.frame_id msg = to_string frame_id /\
    mat_type2encoding (Mat.type frame) = Ok (Image.encoding msg) /\
    Image.is_bigendian msg = Image.is_bigendian msg0.
Proof.
  intros Hsup Hwf Hr Hc Hs.
  destruct (mat_type2encoding_supported _ Hsup) as [enc Henc].
  pose proof Hwf as (Hr0 & Hc0 & Hs0 & Hl).
  pose proof (CV_ELEM_SIZE_pos (Mat.type frame)) as He.
  unfold Mat_elemSize in Hs0.
  assert (Hb : Mat.rows frame * Mat.step frame < 2 ^ 64) by nia.
  eexists. split; [apply (convert_frame_to_message_Ok _ _ _ _ _ Henc) |].
  assert (Hdata : memcpy
            (resize (Image.data msg0)
               (Z.to_nat (to_size_t (Mat.step frame * to_size_t (Mat.rows frame)))))
            (Mat_bytes h frame)
            (Z.to_nat (to_size_t (Mat.step frame * to_size_t (Mat.rows frame))))
          = Mat_bytes h frame).
  { apply memcpy_resize. symmetry. apply copy_size; assumption. }
  cbn [Image.height Image.width Image.step Image.data Image.frame_id
       Image.encoding Image.is_bigendian].
  rewrite Hdata. unfold to_uint32.
  rewrite !Z.mod_small by lia.
  split_and!; try reflexivity; try assumption.
  rewrite Hl. f_equal. lia.
Qed.

Lemma C3_witness :
  exists msg,
    convert_frame_to_message Sample.gray_heap Sample.gray_mat 7 Image_default
    = Ok msg /\
    Image.height msg = 2 /\ Image.width msg = 2 /\ Image.step msg = 2 /\
    Image.data msg = [x01; x02; x03; x04] /\
    Image.frame_id msg = "7"%string.
Proof.
  assert (Hsup : supported (Mat.type Sample.gray_mat)) by (left; reflexivity).
  assert (Hwf : wf_Mat Sample.gray_heap Sample.gray_mat)
    by (split_and!; simpl; try lia; reflexivity).
  assert (Hr : Mat.rows Sample.gray_mat < 2 ^ 31) by (simpl; lia).
  assert (Hc : Mat.cols Sample.gray_mat < 2 ^ 31) by (simpl; lia).
  assert (Hs : Mat.step Sample.gray_mat < 2 ^ 32) by (simpl; lia).
  destruct (C3_convert_frame_to_message Sample.gray_heap Sample.gray_mat 7
              Image_default Hsup Hwf Hr Hc Hs)
    as (msg & Hconv & Hh & Hw & Hst & _ & Hd & _ & Hid & _).
  exists msg. split_and!; assumption.
Defined.

(** ** C4: the encoding table *)

(** C4. The encoding resolver maps each of the four supported layouts to its
    fixed tag (8-bit unsigned with 1, 3 or 4 channels, i.e. 1, 3 or 4 bytes
    per pixel, to mono8, bgr8 and rgba8; signed 16-bit single-sample to
    mono16) and fails with [UnsupportedEncoding] on every other layout and
    on every other type code. *)
Theorem C4_mat_type2encoding_table :
  (mat_type2encoding (CV_MAKETYPE CV_8U 1) = Ok "mono8"%string /\
   CV_ELEM_SIZE (CV_MAKETYPE CV_8U 1) = 1) /\
  (mat_type2encoding (CV_MAKETYPE CV_8U 3) = Ok "bgr8"%string /\
   CV_ELEM_SIZE (CV_MAKETYPE CV_8U 3) = 3) /\
  (mat_type2encoding (CV_MAKETYPE CV_16S 1) = Ok "mono16"%string /\
   CV_MAT_CN (CV_MAKETYPE CV_16S 1) = 1) /\
  (mat_type2encoding (CV_MAKETYPE CV_8U 4) = Ok "rgba8"%string /\
   CV_ELEM_SIZE (CV_MAKETYPE CV_8U 4) = 4) /\
  (forall depth cn, valid_layout depth cn ->
     (depth, cn) <> (CV_8U, 1) -> (depth, cn) <> (CV_8U, 3) ->
     (depth, cn) <> (CV_16S, 1) -> (depth, cn) <> (CV_8U, 4) ->
     mat_type2encoding (CV_MAKETYPE depth cn) = Throw UnsupportedEncoding) /\
  (forall mat_type, ~ supported mat_type ->
     mat_type2encoding mat_type = Throw UnsupportedEncoding).
Proof.
  repeat split; try reflexivity.
  - intros depth cn [Hd Hc] N1 N2 N3 N4.
    apply mat_type2encoding_throws. unfold supported.
    unfold CV_8UC1, CV_8UC3, CV_16SC1, CV_8UC4.
    intros [E|[E|[E|E]]]; apply CV_MAKETYPE_inj in E; try assumption;
      try (change CV_DEPTH_MAX with 8; unfold CV_8U, CV_16S; lia);
      destruct E as [-> ->]; congruence.
  - apply mat_type2encoding_throws.
Qed.

Lemma C4_witness :
  mat_type2encoding (CV_MAKETYPE CV_8U 2) = Throw UnsupportedEncoding /\
  mat_type2encoding (CV_MAKETYPE CV_16U 1) = Throw UnsupportedEncoding /\
  mat_type2encoding (CV_MAKETYPE CV_32F 3) = Throw UnsupportedEncoding /\
  mat_type2encoding (-1) = Throw UnsupportedEncoding.
Proof.
  destruct C4_mat_type2encoding_table as (_ & _ & _ & _ & Hlayout & Hcode).
  assert (Hd : forall d, 0 <= d < 8 -> 0 <= d < CV_DEPTH_MAX) by (intros; assumption).
  assert (Hc : forall c, 1 <= c <= 512 -> 1 <= c <= CV_CN_MAX) by (intros; assumption).
  split_and!.
  - apply (Hlayout CV_8U 2); try discriminate.
    split; [apply Hd | apply Hc]; unfold CV_8U; lia.
  - apply (Hlayout CV_16U 1); try discriminate.
    split; [apply Hd | apply Hc]; unfold CV_16U; lia.
  - apply (Hlayout CV_32F 3); try discriminate.
    split; [apply Hd | apply Hc]; unfold CV_32F; lia.
  - apply Hcode. intros [E|[E|[E|E]]]; vm_compute in E; discriminate.
Defined.

(** ** C5: the last toggle wins *)

(** C5.  When the flip messages queued at the drain point of a pass are
    [msgs ++ [v]], the pass leaves the flip state at [v], whatever [msgs]
    and the state before were, and the state stays [v] through any passes
    that drain nothing; the next pass that produces a frame publishes the
    grabbed picture mirrored if [v] is true and as it is if [v] is false.
    With [true] then [false] queued, the next published frame is the grabbed
    picture, not mirrored. *)
Theorem C5_last_toggle_wins
    show_camera inps st evs0 inp msgs v st1 evs1 quiet st2 evs2 inp3 p :
  Forall wf_input inps ->
  loop show_camera init inps = (Continue st, evs0) ->
  wf_input inp ->
  pending inp = msgs ++ [v] ->
  loop_body show_camera st inp = (Continue st1, evs1) ->
  Forall (fun q => wf_input q /\ pending q = []) quiet ->
  loop show_camera st1 quiet = (Continue st2, evs2) ->
  grabbed inp3 = Some p -> wf_picture p -> 0 < p_rows p * p_cols p ->
  supported (p_type p) ->
  is_flipped st1 = v /\ is_flipped st2 = v /\
  exists st3 evs3 msg,
    loop_body show_camera st2 inp3 = (Continue st3, evs3) /\
    published evs3 = [msg] /\
    Image.data msg = p_data (if v then mirror p else p) /\
    (msgs ++ [v] = [true; false] -> Image.data msg = p_data p).
Proof.
  intros Hwfs Hrun Hwf Hq Hbody Hquiet Hrun2 Hg Hp Hpos Hsup.
  assert (Hinv : inv st) by (eapply inv_loop; [apply inv_init | eassumption..]).
  assert (Hinv1 : inv st1) by (eapply inv_loop_body; eassumption).
  assert (Hinv2 : inv st2).
  { eapply inv_loop; [exact Hinv1 | | exact Hrun2].
    eapply Forall_impl; [exact Hquiet |]. intros q [Hq1 _]. exact Hq1. }
  assert (Hv : is_flipped st1 = v).
  { rewrite (loop_body_is_flipped _ _ _ _ _ Hbody), Hq, last_snoc.
    reflexivity. }
  assert (Hv2 : is_flipped st2 = v).
  { rewrite (loop_quiet _ _ _ _ _ Hquiet Hrun2). exact Hv. }
  split; [exact Hv |]. split; [exact Hv2 |].
  destruct (loop_body_grab show_camera _ _ _ Hinv2 Hg Hp Hpos)
    as (h1 & frame1 & h2 & flipped1 & _ & _ & _ & _ & _ & _ & _ & _ & Hnext).
  destruct (mat_type2encoding_supported _ Hsup) as [enc Henc].
  rewrite Henc, Hv2 in Hnext.
  eexists _, _, _. split; [exact Hnext |].
  split; [apply published_shown |].
  split; [reflexivity |].
  intros Hlast. simpl.
  assert (v = false) as ->; [| reflexivity].
  apply (f_equal last) in Hlast. rewrite last_snoc in Hlast.
  simpl in Hlast. congruence.
Qed.

Lemma C5_witness :
  let first := Sample.tick (Some Sample.bgr2x2) [true; false] in
  let idle := Sample.tick None [] in
  let next := Sample.tick (Some Sample.bgr2x2) [] in
  exists st1 evs1 st2 evs2,
    loop_body false init first = (Continue st1, evs1) /\
    loop false st1 [idle] = (Continue st2, evs2) /\
    is_flipped st2 = false /\
    Image.data <$> published (snd (loop_body false st2 next))
    = [p_data Sample.bgr2x2].
Proof.
  intros first idle next.
  assert (Hp : wf_picture Sample.bgr2x2)
    by (split_and!; simpl; try lia; reflexivity).
  assert (Hpos : 0 < p_rows Sample.bgr2x2 * p_cols Sample.bgr2x2)
    by (simpl; lia).
  assert (Hsup : supported (p_type Sample.bgr2x2)) by (right; left; reflexivity).
  assert (Hquiet : Forall (fun q => wf_input q /\ pending q = []) [idle])
    by (repeat constructor).
  destruct (loop_body false init first) as [o evs1] eqn:Hbody.
  assert (Ho : exists st1, o = Continue st1).
  { vm_compute in Hbody. injection Hbody as <- _. eexists. reflexivity. }
  destruct Ho as [st1 ->].
  destruct (loop false st1 [idle]) as [o2 evs2] eqn:Hrun2.
  assert (Ho2 : exists st2, o2 = Continue st2).
  { simpl in Hrun2. injection Hrun2 as <- _. eexists. reflexivity. }
  destruct Ho2 as [st2 ->].
  destruct (C5_last_toggle_wins false [] init [] first [true] false st1 evs1
              [idle] st2 evs2 next Sample.bgr2x2
              (List.Forall_nil _) eq_refl Hp eq_refl Hbody Hquiet Hrun2
              eq_refl Hp Hpos Hsup)
    as (_ & Hv & st3 & evs3 & msg & Hnext & Hpub & _ & Hdata).
  exists st1, evs1, st2, evs2.
  split_and!; [reflexivity | exact Hrun2 | exact Hv |].
  rewrite Hnext. simpl. rewrite Hpub. simpl. rewrite (Hdata eq_refl).
  reflexivity.
Defined.

(** ** C6: flipping twice *)

(** Flipping the flipped rows gives back the pixel rows of the source,
    without the bytes between them. *)
Lemma flipHoriz_twice src (sstep nr nc esz : nat) :
  (nc * esz <= sstep)%nat -> length src = (nr * sstep)%nat ->
  flipHoriz (concat (flipHoriz src sstep nr nc esz)) (nc * esz) nr nc esz
  = read_rows src sstep (nc * esz) nr.
Proof.
  intros Hs Hl.
  pose proof (flipHoriz_uniform src sstep nr nc esz Hs Hl) as HF.
  pose proof (read_rows_concat (nc * esz) _ HF) as HR0.
  rewrite length_flipHoriz in HR0.
  unfold flipHoriz at 1. rewrite HR0.
  unfold flipHoriz. rewrite <- list_fmap_compose.
  transitivity (id <$> read_rows src sstep (nc * esz) nr);
    [| apply list_fmap_id].
  apply list_eq. intros r. rewrite list_lookup_fmap, (list_lookup_fmap id).
  destruct (read_rows src sstep (nc * esz) nr !! r) as [row|] eqn:Hrow;
    [| reflexivity].
  simpl. f_equal. apply flip_row_involutive.
  pose proof (read_rows_uniform src sstep (nc * esz) nr Hs Hl) as HR.
  rewrite Forall_lookup in HR. apply (HR r row Hrow).
Qed.

(** C6.  Flipping a matrix into [d1] and the result into [d2] gives a matrix
    of the same shape and type with the same pixel rows, byte for byte; when
    the source is tightly packed, as every frame of the loop is, the result
    has the same stride and its storage is byte-identical to the
    source's. *)
Theorem C6_flip_twice h src d1 d2 h1 f1 h2 f2 :
  wf_Mat h src -> ok_Mat h d1 -> ok_Mat h d2 ->
  cv_flip h src d1 = (h1, f1) ->
  cv_flip h1 f1 d2 = (h2, f2) ->
  Mat.rows f2 = Mat.rows src /\ Mat.cols f2 = Mat.cols src /\
  Mat.type f2 = Mat.type src /\
  Mat_pixel_rows h2 f2 = Mat_pixel_rows h src /\
  (continuous src ->
   Mat.step f2 = Mat.step src /\ Mat_bytes h2 f2 = Mat_bytes h src).
Proof.
  intros Hwf Hd1 Hd2 Hflip1 Hflip2.
  destruct (cv_flip_spec _ _ _ _ _ Hwf Hd1 Hflip1)
    as (Er & Ec & Et & Es & Eb & Hok1 & Hcont1 & _ & _ & Ekeep).
  assert (Hd2' : ok_Mat h1 d2) by (eapply ok_Mat_preserved; eassumption).
  destruct (cv_flip_spec _ _ _ _ _ (proj1 Hok1) Hd2' Hflip2)
    as (Fr & Fc & Ft & Fs & Fb & Hok2 & Hcont2 & _).
  destruct Hwf as (Hr & Hc & Hs & Hl).
  pose proof (CV_ELEM_SIZE_pos (Mat.type src)) as He.
  assert (Ee : Mat_elemSize f1 = Mat_elemSize src)
    by (unfold Mat_elemSize; rewrite Et; reflexivity).
  assert (Ee2 : Mat_elemSize f2 = Mat_elemSize src)
    by (unfold Mat_elemSize; rewrite Ft, Et; reflexivity).
  unfold Mat_elemSize in Hs |-. fold (Mat_elemSize src) in Hs, He.
  set (esz := Mat_elemSize src) in *.
  assert (Hn : Z.to_nat (Mat.cols src * esz)
               = (Z.to_nat (Mat.cols src) * Z.to_nat esz)%nat)
    by (apply Z2Nat.inj_mul; lia).
  assert (Hfit : (Z.to_nat (Mat.cols src) * Z.to_nat esz
                  <= Z.to_nat (Mat.step src))%nat) by lia.
  assert (Hlen : length (Mat_bytes h src)
                 = (Z.to_nat (Mat.rows src) * Z.to_nat (Mat.step src))%nat).
  { rewrite Hl. apply Z2Nat.inj_mul; lia. }
  assert (Hb2 : Mat_bytes h2 f2 = concat (Mat_pixel_rows h src)).
  { rewrite Fb, Eb, Es, Er, Ec, Ee, Hn.
    rewrite flipHoriz_twice by assumption.
    unfold Mat_pixel_rows. fold esz. rewrite Hn. reflexivity. }
  assert (Hu : Forall (fun x => length x = Z.to_nat (Mat.cols src * esz))
                 (Mat_pixel_rows h src)).
  { unfold Mat_pixel_rows. fold esz. rewrite Hn.
    apply read_rows_uniform; assumption. }
  split_and!; try congruence.
  - unfold Mat_pixel_rows at 1. rewrite Hb2, Fs, Fr, Fc, Ec, Er, Ee2, Ee.
    fold esz.
    pose proof (read_rows_concat _ _ Hu) as HR.
    assert (HL : length (Mat_pixel_rows h src) = Z.to_nat (Mat.rows src))
      by apply length_read_rows.
    rewrite HL in HR. exact HR.
  - intros Hcont. unfold continuous in Hcont. fold esz in Hcont.
    split; [congruence |].
    rewrite Hb2. unfold Mat_pixel_rows. fold esz. rewrite Hcont.
    apply concat_read_rows. rewrite Hlen, Hcont. reflexivity.
Qed.

Lemma C6_witness :
  let '(h1, f1) := cv_flip Sample.gray_heap Sample.gray_mat Mat_default in
  let '(h2, f2) := cv_flip h1 f1 Mat_default in
  Mat_bytes h1 f1 = [x02; x01; x04; x03] /\
  Mat_pixel_rows h2 f2 = [[x01; x02]; [x03; x04]] /\
  Mat.step f2 = Mat.step Sample.gray_mat /\
  Mat_bytes h2 f2 = Mat_bytes Sample.gray_heap Sample.gray_mat.
Proof.
  destruct (cv_flip Sample.gray_heap Sample.gray_mat Mat_default)
    as [h1 f1] eqn:Hflip1.
  destruct (cv_flip h1 f1 Mat_default) as [h2 f2] eqn:Hflip2.
  assert (Hwf : wf_Mat Sample.gray_heap Sample.gray_mat)
    by (split_and!; simpl; try lia; reflexivity).
  assert (Hcont : continuous Sample.gray_mat) by reflexivity.
  destruct (C6_flip_twice _ _ _ _ _ _ _ _ Hwf
              (ok_Mat_default _) (ok_Mat_default _) Hflip1 Hflip2)
    as (_ & _ & _ & Hrows & Hraw).
  destruct (Hraw Hcont) as [Hstep Hbytes].
  split_and!; [| rewrite Hrows; reflexivity | exact Hstep | exact Hbytes].
  vm_compute in Hflip1. injection Hflip1 as <- <-. reflexivity.
Defined.

(** ** C7: the shape of the flipped matrix *)

(** C7.  The flipped matrix has the rows, the columns and the type of the
    source, hence the same encoding; its rows are tightly packed, so for a
    tightly packed source, as every frame that the loop hands to the
    transform is, the stride is the source's too.  Byte [k] of pixel [j] of
    row [i] of the result is byte [k] of pixel [cols - 1 - j] of row [i] of
    the source: within each row the order of the pixels is reversed and
    nothing else changes. *)
Theorem C7_flip_preserves_shape h src dst h2 dst2 :
  wf_Mat h src -> ok_Mat h dst ->
  cv_flip h src dst = (h2, dst2) ->
  Mat.cols dst2 = Mat.cols src /\ Mat.rows dst2 = Mat.rows src /\
  Mat.type dst2 = Mat.type src /\
  mat_type2encoding (Mat.type dst2) = mat_type2encoding (Mat.type src) /\
  Mat.step dst2 = Mat.cols src * Mat_elemSize src /\
  (continuous src -> Mat.step dst2 = Mat.step src) /\
  (forall i j k : nat,
     (i < Z.to_nat (Mat.rows src))%nat -> (j < Z.to_nat (Mat.cols src))%nat ->
     (k < Z.to_nat (Mat_elemSize src))%nat ->
     Mat_bytes h2 dst2
       !! (i * Z.to_nat (Mat.step dst2)
           + (j * Z.to_nat (Mat_elemSize src) + k))%nat
     = Mat_bytes h src
       !! (i * Z.to_nat (Mat.step src)
           + ((Z.to_nat (Mat.cols src) - 1 - j) * Z.to_nat (Mat_elemSize src)
              + k))%nat) /\
  (forall show_camera inps st evs0 p h1 frame1 hf flipped1,
     Forall wf_input inps ->
     loop show_camera init inps = (Continue st, evs0) ->
     wf_picture p ->
     VideoCapture_read (mem st) (frame st) (Some p) = (h1, frame1) ->
     cv_flip h1 frame1 (flipped_frame st) = (hf, flipped1) ->
     continuous frame1 /\
     Mat.cols flipped1 = Mat.cols frame1 /\ Mat.rows flipped1 = Mat.rows frame1 /\
     Mat.type flipped1 = Mat.type frame1 /\ Mat.step flipped1 = Mat.step frame1).
Proof.
  intros Hwf Hdst Hflip.
  destruct (cv_flip_spec _ _ _ _ _ Hwf Hdst Hflip)
    as (Er & Ec & Et & Es & Eb & _).
  destruct Hwf as (Hr & Hc & Hs & Hl).
  pose proof (CV_ELEM_SIZE_pos (Mat.type src)) as He.
  fold (Mat_elemSize src) in He.
  split_and!; try assumption.
  - rewrite Et. reflexivity.
  - intros Hcont. rewrite Es. symmetry. exact Hcont.
  - intros r j k Hi Hj Hk. rewrite Eb, Es.
    rewrite Z2Nat.inj_mul by lia.
    apply lookup_concat_flipHoriz; try assumption.
    + rewrite <- Z2Nat.inj_mul by lia. lia.
    + rewrite Hl. apply Z2Nat.inj_mul; lia.
  - intros show_camera inps st evs0 p h1 frame1 hf flipped1
           Hwfs Hrun Hp Hread Hflip'.
    assert (Hinv : inv st)
      by (eapply inv_loop; [apply inv_init | eassumption..]).
    destruct (capture_step _ _ _ _ Hinv Hp Hread)
      as (_ & _ & _ & _ & _ & Hok1 & Hcont1 & Hokf & Hsep).
    destruct (flip_step _ _ _ _ _ Hok1 Hcont1 Hokf Hsep Hflip')
      as (_ & _ & _ & _ & Fr & Fc & Ft & Fs & _).
    split_and!; assumption.
Qed.

Lemma C7_witness :
  let '(h2, dst2) := cv_flip Sample.gray_heap Sample.gray_mat Mat_default in
  Mat.cols dst2 = 2 /\ Mat.rows dst2 = 2 /\ Mat.type dst2 = CV_8UC1 /\
  Mat.step dst2 = 2 /\
  Mat_bytes h2 dst2 !! 2%nat = Mat_bytes Sample.gray_heap Sample.gray_mat !! 3%nat.
Proof.
  destruct (cv_flip Sample.gray_heap Sample.gray_mat Mat_default)
    as [h2 dst2] eqn:Hflip.
  assert (Hwf : wf_Mat Sample.gray_heap Sample.gray_mat)
    by (split_and!; simpl; try lia; reflexivity).
  assert (Hcont : continuous Sample.gray_mat) by reflexivity.
  destruct (C7_flip_preserves_shape _ _ _ _ _ Hwf (ok_Mat_default _) Hflip)
    as (Ec & Er & Et & _ & _ & Es & Epx & _).
  split_and!; [exact Ec | exact Er | exact Et | exact (Es Hcont) |].
  specialize (Epx 1%nat 0%nat 0%nat).
  rewrite (Es Hcont) in Epx. apply Epx; vm_compute; lia.
Defined.

(** ** C8: the preview *)





(** ** C9: draining and pacing *)

(** C9 (as the code has it).  A pass whose frame is empty, as after a failed
    grab, or is of a supported type goes on: it ends by draining the queued
    flip messages with [spin_some] and sleeping for the rest of the period,
    in that order and as its last two effects, and only then does the next
    pass start; the flip state it leaves is the last drained value (the one
    before when none was queued); with an empty frame it does nothing else,
    with a frame it publishes one message first.  A pass whose frame is not
    empty and has no encoding does neither: it is left by the exception
    without a spin or a sleep, and no pass follows. *)
Theorem C9_spin_and_sleep_unless_thrown
    show_camera st inp h1 frame1 rest :
  VideoCapture_read (mem st) (frame st) (grabbed inp) = (h1, frame1) ->
  (Mat_empty frame1 = true \/ supported (Mat.type frame1) ->
   exists st' pre,
     loop_body show_camera st inp
     = (Continue st', pre ++ [EvSpinSome (pending inp); EvSleep]) /\
     Forall (fun ev => ev <> EvSleep /\ forall q, ev <> EvSpinSome q) pre /\
     (Mat_empty frame1 = true -> pre = []) /\
     (Mat_empty frame1 = false -> exists msg, published pre = [msg]) /\
     is_flipped st' = default (is_flipped st) (last (pending inp)) /\
     loop show_camera st (inp :: rest) =
       (let '(o, evs) := loop show_camera st' rest in
        (o, (pre ++ [EvSpinSome (pending inp); EvSleep]) ++ evs))) /\
  (Mat_empty frame1 = false -> ~ supported (Mat.type frame1) ->
   loop_body show_camera st inp = (Uncaught UnsupportedEncoding, []) /\
   loop show_camera st (inp :: rest) = (Uncaught UnsupportedEncoding, [])).
Proof.
  intros Hread. simpl loop. rewrite (loop_body_eq _ _ _ _ _ Hread).
  destruct (Mat_empty frame1) eqn:Hempty.
  - split; [| discriminate]. intros _.
    eexists _, []. split; [reflexivity |].
    split; [constructor |]. split; [reflexivity |]. split; [discriminate |].
    split; [rewrite spin_some_is_flipped; reflexivity |]. reflexivity.
  - assert (Htype : Mat.type (if is_flipped st
                               then snd (cv_flip h1 frame1 (flipped_frame st))
                               else frame1) = Mat.type frame1).
    { destruct (is_flipped st); [| reflexivity].
      destruct (cv_flip h1 frame1 (flipped_frame st)) as [h2 flipped1] eqn:Hflip.
      apply (cv_flip_type _ _ _ _ _ Hflip). }
    destruct (if is_flipped st then cv_flip h1 frame1 (flipped_frame st)
              else (h1, flipped_frame st)) as [h2 flipped1] eqn:Hsel.
    assert (Htype' : Mat.type (if is_flipped st then flipped1 else frame1)
                     = Mat.type frame1).
    { destruct (is_flipped st); [| reflexivity].
      rewrite Hsel in Htype. exact Htype. }
    split.
    + intros [Hc | Hsup]; [discriminate |].
      destruct (mat_type2encoding_supported _ Hsup) as [enc Henc].
      rewrite (convert_frame_to_message_Ok _ _ _ _ enc) by congruence.
      eexists _, ((if show_camera
                   then [EvImshow "cam2image" frame1 (Mat_bytes h2 frame1);
                         EvWaitKey 1]
                   else []) ++ [EvPublish _]).
      split; [rewrite <- app_assoc; reflexivity |].
      split; [destruct show_camera; repeat constructor; discriminate |].
      split; [discriminate |].
      split; [intros _; eexists; destruct show_camera; reflexivity |].
      split; [rewrite spin_some_is_flipped; reflexivity |].
      rewrite <- app_assoc. reflexivity.
    + intros _ Hun.
      rewrite (convert_frame_to_message_Throw _ _ _ _ UnsupportedEncoding);
        [split; reflexivity |].
      apply mat_type2encoding_throws. rewrite Htype'. exact Hun.
Qed.

(** The claim as stated fails: the first pass of this run grabs a
    two-channel 8-bit picture with a flip message queued; it is left by the
    exception with no spin and no sleep, and the message is never
    handled. *)
Lemma C9_counterexample :
  let bad := Sample.tick (Some Sample.two_channel) [true] in
  snd (loop_body false init bad) = [] /\
  fst (loop_body false init bad) = Uncaught UnsupportedEncoding /\
  ~ In EvSleep (snd (loop false init [bad])) /\
  ~ In (EvSpinSome [true]) (snd (loop false init [bad])) /\
  main true [bad] = (Terminated UnsupportedEncoding, []).
Proof.
  split_and!; try reflexivity; intros [].
Qed.

Lemma C9_witness :
  let idle := Sample.tick None [false; true] in
  let good := Sample.tick (Some Sample.gray2) [true] in
  (exists st',
     loop_body false init idle
     = (Continue st', [] ++ [EvSpinSome [false; true]; EvSleep]) /\
     is_flipped st' = true) /\
  (exists st' pre msg,
     loop_body false init good
     = (Continue st', pre ++ [EvSpinSome [true]; EvSleep]) /\
     published pre = [msg] /\ is_flipped st' = true).
Proof.
  intros idle good. split.
  - assert (Hread : VideoCapture_read (mem init) (frame init) (grabbed idle)
                    = ([], Mat_release Mat_default)) by reflexivity.
    destruct (C9_spin_and_sleep_unless_thrown false init idle _ _ [] Hread)
      as [Hgo _].
    destruct (Hgo (or_introl eq_refl))
      as (st' & pre & Hbody & _ & Hpre & _ & Hfl & _).
    rewrite (Hpre eq_refl) in Hbody. exists st'. split; assumption.
  - assert (Hread : VideoCapture_read (mem init) (frame init) (grabbed good)
                    = ([[x01; x02]], Mat.mk 1 2 CV_8UC1 2 (Some 0%nat)))
      by reflexivity.
    destruct (C9_spin_and_sleep_unless_thrown false init good _ _ [] Hread)
      as [Hgo _].
    destruct (Hgo (or_intror (or_introl eq_refl)))
      as (st' & pre & Hbody & _ & _ & Hmsg & Hfl & _).
    destruct (Hmsg eq_refl) as [msg Hpub].
    exists st', pre, msg. split_and!; assumption.
Defined.

(** ** C10: the transform writes elsewhere *)

Lemma cv_flip_data h src dst h2 dst2 :
  cv_flip h src dst = (h2, dst2) ->
  0 < Mat.rows src * Mat.cols src -> is_Some (Mat.data dst2).
Proof.
  unfold cv_flip.
  destruct (Mat_create h dst (Mat.rows src) (Mat.cols src) (Mat.type src))
    as [h0 d0] eqn:Hcreate.
  intros [= _ <-]. apply (Mat_create_shape _ _ _ _ _ _ _ Hcreate).
Qed.

(** C10.  In every pass of a run in which the flip state is true and the
    grab yields a picture with pixels, [cv::flip] writes into the storage of
    [flipped_frame], which is not the storage of [frame]: after the
    transform [frame] is the same header over the same bytes, those of the
    grabbed picture, and [flipped_frame] holds their mirror image. *)
Theorem C10_flip_leaves_frame
    show_camera inps st evs0 inp p h1 frame1 h2 flipped1 :
  Forall wf_input inps ->
  loop show_camera init inps = (Continue st, evs0) ->
  is_flipped st = true ->
  grabbed inp = Some p -> wf_picture p -> 0 < p_rows p * p_cols p ->
  VideoCapture_read (mem st) (frame st) (Some p) = (h1, frame1) ->
  cv_flip h1 frame1 (flipped_frame st) = (h2, flipped1) ->
  is_Some (Mat.data frame1) /\ is_Some (Mat.data flipped1) /\
  Mat.data flipped1 <> Mat.data frame1 /\
  Mat_bytes h2 frame1 = Mat_bytes h1 frame1 /\
  Mat_bytes h1 frame1 = p_data p /\
  Mat_bytes h2 flipped1 = p_data (mirror p) /\
  (forall st' evs,
     loop_body show_camera st inp = (Continue st', evs) ->
     frame st' = frame1 /\ flipped_frame st' = flipped1 /\ mem st' = h2 /\
     Mat_bytes (mem st') (frame st') = p_data p /\
     Mat_bytes (mem st') (flipped_frame st') = p_data (mirror p)).
Proof.
  intros Hwfs Hrun Hfl Hg Hp Hpos Hread Hflip.
  assert (Hinv : inv st) by (eapply inv_loop; [apply inv_init | eassumption..]).
  destruct (loop_body_grab show_camera _ _ _ Hinv Hg Hp Hpos)
    as (h1' & frame1' & h2' & flipped1' & Hread' & Hflip' & Eb1 & Eb2 & Hsep
        & Hsome & Hmirror & _ & Hbody).
  rewrite Hread in Hread'. injection Hread' as <- <-.
  rewrite Hfl, Hflip in Hflip'. injection Hflip' as <- <-.
  specialize (Hmirror Hfl).
  destruct (VideoCapture_read_Some _ _ _ _ _ (proj1 Hinv) Hp Hread)
    as (Er & Ec & _).
  assert (Hsome2 : is_Some (Mat.data flipped1)).
  { eapply cv_flip_data; [exact Hflip |]. rewrite Er, Ec. exact Hpos. }
  split_and!; try assumption; try congruence.
  - destruct Hsome as [l Hl]. rewrite Hl. intros Heq. exact (Hsep l Hl Heq).
  - intros st' evs Hst'. rewrite Hbody in Hst'.
    destruct (mat_type2encoding (p_type p)); [| discriminate].
    injection Hst' as <- _.
    destruct (spin_some_spec
                (mkState (is_flipped st) frame1 flipped1 (to_size_t (i st + 1)) h2)
                (pending inp)) as (_ & -> & -> & _ & ->).
    simpl. split_and!; try reflexivity; assumption.
Qed.

Lemma C10_witness :
  let st := mkState true (Mat_release Mat_default) Mat_default 1 [] in
  let frame1 := Mat.mk 2 2 CV_8UC3 6 (Some 0%nat) in
  let flipped1 := Mat.mk 2 2 CV_8UC3 6 (Some 1%nat) in
  let h2 := [p_data Sample.bgr2x2; p_data (mirror Sample.bgr2x2)] in
  Mat.data flipped1 <> Mat.data frame1 /\
  Mat_bytes h2 frame1 = p_data Sample.bgr2x2 /\
  Mat_bytes h2 flipped1 = p_data (mirror Sample.bgr2x2).
Proof.
  intros st frame1 flipped1 h2.
  assert (Hwfs : Forall wf_input [Sample.tick None [true]])
    by (repeat constructor).
  assert (Hrun : loop false init [Sample.tick None [true]]
                 = (Continue st, [EvSpinSome [true]; EvSleep])) by reflexivity.
  assert (Hp : wf_picture Sample.bgr2x2)
    by (split_and!; simpl; try lia; reflexivity).
  assert (Hpos : 0 < p_rows Sample.bgr2x2 * p_cols Sample.bgr2x2)
    by (simpl; lia).
  assert (Hread : VideoCapture_read (mem st) (frame st) (Some Sample.bgr2x2)
                  = ([p_data Sample.bgr2x2], frame1)) by reflexivity.
  assert (Hflip : cv_flip [p_data Sample.bgr2x2] frame1 (flipped_frame st)
                  = (h2, flipped1)) by reflexivity.
  destruct (C10_flip_leaves_frame false _ st _
              (Sample.tick (Some Sample.bgr2x2) []) Sample.bgr2x2 _ _ _ _
              Hwfs Hrun eq_refl eq_refl Hp Hpos Hread Hflip)
    as (_ & _ & Hne & Hkeep & Hsrc & Hdst & _).
  split_and!; [exact Hne | congruence | exact Hdst].
Defined.

(** * Further properties of the node *)

(** ** The encoding table *)

Lemma mat_type2encoding_Throw_inv mat_type e :
  mat_type2encoding mat_type = Throw e ->
  e = UnsupportedEncoding /\ ~ supported mat_type.
Proof.
  intros H. split.
  - unfold mat_type2encoding in H.
    repeat (destruct (_ =? _); [discriminate |]). congruence.
  - intros Hs. destruct (mat_type2encoding_supported _ Hs) as [enc Henc].
    congruence.
Qed.

Lemma mat_type2encoding_Ok_in mat_type enc :
  mat_type2encoding mat_type = Ok enc -> enc ∈ encodings.
Proof.
  intros H. pose proof (mat_type2encoding_Ok_supported _ _ H) as S.
  destruct S as [->|[->|[->| ->]]]; vm_compute in H; injection H as <-;
    apply list_elem_of_In; simpl; tauto.
Qed.

(** X1.  No two type codes share an encoding string: the string of a message
    determines the type code of the frame it was built from, and it is one
    of the four strings of the table. *)
Theorem X1_encoding_determines_type t1 t2 enc :
  mat_type2encoding t1 = Ok enc ->
  mat_type2encoding t2 = Ok enc ->
  t1 = t2 /\ enc ∈ encodings.
Proof.
  intros H1 H2.
  pose proof (mat_type2encoding_Ok_supported _ _ H1) as S1.
  pose proof (mat_type2encoding_Ok_supported _ _ H2) as S2.
  destruct S1 as [->|[->|[->| ->]]]; vm_compute in H1; injection H1 as <-;
    (split; [| apply list_elem_of_In; simpl; tauto]);
    destruct S2 as [->|[->|[->| ->]]]; vm_compute in H2;
    first [reflexivity | discriminate].
Qed.

Lemma X1_witness :
  CV_MAKETYPE CV_8U 3 = 16 /\ "bgr8"%string ∈ encodings.
Proof.
  exact (X1_encoding_determines_type (CV_MAKETYPE CV_8U 3) 16 "bgr8"
           eq_refl eq_refl).
Defined.

(** ** The message builder on a message that is not fresh *)

(** X2.  For a frame whose storage holds its [rows * step] bytes, fewer than
    a vector can hold, what the builder leaves in the message depends on the
    type of the frame.  For a supported type every field but [is_bigendian]
    is overwritten: the result does not depend on what the message held
    before, and no byte of an older, longer payload is left in [data].  For
    any other type only [height] and [width] have been written when the
    resolver throws: the message keeps its old [frame_id], [encoding],
    [step] and [data] beside the new frame's size. *)
Theorem X2_convert_overwrites h frame frame_id :
  wf_Mat h frame -> Mat.rows frame * Mat.step frame < 2 ^ 63 ->
  (supported (Mat.type frame) ->
   forall msg0 msg0',
     Image.is_bigendian msg0 = Image.is_bigendian msg0' ->
     convert_frame_to_message h frame frame_id msg0
     = convert_frame_to_message h frame frame_id msg0' /\
     convert_frame_to_message_out h frame frame_id msg0
     = convert_frame_to_message_out h frame frame_id msg0' /\
     Image.data (convert_frame_to_message_out h frame frame_id msg0)
     = Mat_bytes h frame) /\
  (~ supported (Mat.type frame) ->
   forall msg0,
     convert_frame_to_message h frame frame_id msg0 = Throw UnsupportedEncoding /\
     convert_frame_to_message_out h frame frame_id msg0
     = Image.mk (Image.frame_id msg0) (to_uint32 (Mat.rows frame))
         (to_uint32 (Mat.cols frame)) (Image.encoding msg0)
         (Image.is_bigendian msg0) (Image.step msg0) (Image.data msg0)).
Proof.
  intros Hwf Hb. split.
  - intros Hsup msg0 msg0' Hbe.
    destruct (mat_type2encoding_supported _ Hsup) as [enc Henc].
    assert (Hb' : Mat.rows frame * Mat.step frame < 2 ^ 64) by lia.
    pose proof (copy_size _ _ Hwf Hb') as Hsize.
    unfold convert_frame_to_message_out.
    rewrite !(convert_frame_to_message_Ok _ _ _ _ enc Henc).
    cbv zeta. rewrite Hbe.
    rewrite !memcpy_resize by (symmetry; exact Hsize).
    split_and!; reflexivity.
  - intros Hun msg0. unfold convert_frame_to_message_out.
    rewrite (convert_frame_to_message_Throw _ _ _ _ UnsupportedEncoding)
      by (apply mat_type2encoding_throws, Hun).
    split; reflexivity.
Qed.

Lemma X2_witness :
  let old := Image.mk "9" 7 7 "rgba8" false 28 (replicate 100 xff) in
  convert_frame_to_message_out Sample.gray_heap Sample.gray_mat 3 old
  = Image.mk "3" 2 2 "mono8" false 2 [x01; x02; x03; x04] /\
  convert_frame_to_message_out Sample.gray_heap
    (Mat.mk 2 1 (CV_MAKETYPE CV_8U 2) 2 (Some 0%nat)) 3 old
  = Image.mk "9" 2 1 "rgba8" false 28 (replicate 100 xff).
Proof.
  intros old. split.
  - assert (Hwf : wf_Mat Sample.gray_heap Sample.gray_mat)
      by (split_and!; simpl; try lia; reflexivity).
    assert (Hb : Mat.rows Sample.gray_mat * Mat.step Sample.gray_mat < 2 ^ 63)
      by (simpl; lia).
    destruct (X2_convert_overwrites _ _ 3 Hwf Hb) as [Hok _].
    destruct (Hok (or_introl eq_refl) old Image_default eq_refl)
      as (_ & Hout & _).
    rewrite Hout. reflexivity.
  - assert (Hwf : wf_Mat Sample.gray_heap
                    (Mat.mk 2 1 (CV_MAKETYPE CV_8U 2) 2 (Some 0%nat)))
      by (split_and!; simpl; try lia; reflexivity).
    assert (Hb : 2 * 2 < 2 ^ 63) by lia.
    destruct (X2_convert_overwrites _ _ 3 Hwf Hb) as [_ Hthrow].
    apply Hthrow.
    intros [E|[E|[E|E]]]; vm_compute in E; discriminate.
Defined.

(** ** When [main] returns 0 *)

(** What a pass does, by the kind of its grab. *)
Lemma loop_body_by_grab show_camera st inp :
  inv st -> wf_input inp ->
  if unsupported_grab inp
  then loop_body show_camera st inp = (Uncaught UnsupportedEncoding, [])
  else exists st' evs,
         loop_body show_camera st inp = (Continue st', evs) /\
         inv st' /\
         length (published evs) = (if produces inp then 1 else 0)%nat.
Proof.
  intros Hinv Hwf. unfold unsupported_grab, produces, wf_input in *.
  destruct (grabbed inp) as [p|] eqn:Hg.
  - unfold has_pixels. destruct (Z.ltb_spec 0 (p_rows p * p_cols p)) as [Hpos|Hle].
    + destruct (loop_body_grab show_camera _ _ _ Hinv Hg Hwf Hpos)
        as (h1 & frame1 & h2 & flipped1 & _ & _ & _ & _ & _ & _ & _ & Hinv' & ->).
      unfold has_encoding.
      destruct (mat_type2encoding (p_type p)) as [enc|e] eqn:Henc; simpl.
      * eexists _, _. split; [reflexivity |].
        split; [apply inv_spin_some, Hinv' |].
        rewrite published_shown. reflexivity.
      * destruct (mat_type2encoding_Throw_inv _ _ Henc) as [-> _]. reflexivity.
    + simpl.
      destruct (VideoCapture_read (mem st) (frame st) (Some p))
        as [h1 frame1] eqn:Hread.
      destruct (capture_step _ _ _ _ Hinv Hwf Hread)
        as (Hne & _ & _ & _ & _ & Hok1 & _ & Hokf & Hsep).
      assert (Hz : (0 <? p_rows p * p_cols p) = false) by (apply Z.ltb_ge, Hle).
      rewrite Hz in Hne. simpl in Hne. rewrite <- Hg in Hread.
      rewrite (loop_body_empty _ _ _ _ _ Hread Hne).
      eexists _, _. split; [reflexivity |].
      split; [| reflexivity]. apply inv_spin_some. split_and!; assumption.
  - rewrite (loop_body_None _ _ _ Hg). eexists _, _. split; [reflexivity |].
    split; [| reflexivity].
    apply inv_spin_some. destruct Hinv as (Hf & Hff & Hsep).
    split_and!; simpl; [apply ok_Mat_release, Hf | exact Hff |].
    intros l [=].
Qed.

Lemma loop_by_grabs show_camera inps :
  forall st,
    inv st -> Forall wf_input inps ->
    if existsb unsupported_grab inps
    then exists evs, loop show_camera st inps = (Uncaught UnsupportedEncoding, evs)
    else exists st' evs,
           loop show_camera st inps = (Continue st', evs) /\
           length (published evs) = length (List.filter produces inps).
Proof.
  induction inps as [|inp rest IH]; intros st Hinv Hwf; simpl.
  - eexists _, _. split; reflexivity.
  - inversion Hwf as [|? ? Hwf1 Hwf2]; subst.
    pose proof (loop_body_by_grab show_camera st inp Hinv Hwf1) as Hbody.
    destruct (unsupported_grab inp) eqn:Hbad; simpl.
    + rewrite Hbody. eexists. reflexivity.
    + destruct Hbody as (st1 & evs1 & -> & Hinv1 & Hlen1).
      specialize (IH st1 Hinv1 Hwf2).
      destruct (existsb unsupported_grab rest).
      * destruct IH as [evs2 ->]. eexists. reflexivity.
      * destruct IH as (st2 & evs2 & -> & Hlen2).
        eexists _, _. split; [reflexivity |].
        rewrite published_app, length_app, Hlen1, Hlen2.
        destruct (produces inp); reflexivity.
Qed.

(** X4.  With the device open and well-formed grabs, [main] returns 0
    exactly when no pass gets a non-empty frame without an encoding, and
    then it has published one message for each pass that got a non-empty
    frame, no more and no fewer. *)
Theorem X4_main_normal_exit inps :
  Forall wf_input inps ->
  (fst (main true inps) = Returned 0 <-> existsb unsupported_grab inps = false) /\
  (existsb unsupported_grab inps = false ->
   length (published (snd (main true inps)))
   = length (List.filter produces inps)).
Proof.
  intros Hwf. unfold main. simpl negb. cbv iota.
  pose proof (loop_by_grabs false inps init inv_init Hwf) as Hrun.
  destruct (existsb unsupported_grab inps).
  - destruct Hrun as [evs ->]. simpl. split; [| discriminate].
    split; discriminate.
  - destruct Hrun as (st' & evs & -> & Hlen). simpl. split; [| intros _; exact Hlen].
    split; reflexivity.
Qed.

Lemma X4_witness :
  let inps :=
    [Sample.tick (Some Sample.gray2) [true]; Sample.tick None [];
     Sample.tick (Some Sample.bgr2x2) []] in
  fst (main true inps) = Returned 0 /\
  length (published (snd (main true inps))) = 2%nat.
Proof.
  intros inps.
  assert (Hwf : Forall wf_input inps).
  { repeat constructor; simpl; lia. }
  destruct (X4_main_normal_exit inps Hwf) as [Hexit Hcount].
  split; [apply Hexit; reflexivity | apply Hcount; reflexivity].
Defined.

(** ** Frame ids are not reused *)

(** X6.  As long as the counter has not wrapped around, no two messages of
    a run carry the same [frame_id]. *)
Theorem X6_frame_ids_distinct show_camera inps o evs :
  loop show_camera init inps = (o, evs) ->
  Z.of_nat (length (published evs)) < 2 ^ 64 ->
  NoDup (Image.frame_id <$> published evs).
Proof.
  intros Hrun Hb.
  assert (Hi : 0 <= i init < 2 ^ 64) by (simpl; lia).
  destruct (loop_frame_ids _ _ _ _ _ Hi Hrun) as [-> _].
  apply NoDup_fmap_2_strong; [| apply NoDup_seq].
  intros x y Hx Hy Heq. apply elem_of_seq in Hx, Hy. simpl in Heq.
  unfold to_size_t in Heq. rewrite !Z.mod_small in Heq by lia.
  apply to_string_inj in Heq; lia.
Qed.

Lemma X6_witness :
  NoDup (Image.frame_id <$>
         published (snd (loop false init
                           [Sample.tick (Some Sample.gray2) [];
                            Sample.tick None [];
                            Sample.tick (Some Sample.gray2) []]))).
Proof.
  eapply (X6_frame_ids_distinct false _ _ _); [apply surjective_pairing |].
  vm_compute. reflexivity.
Defined.

(** ** The flip state over a run *)

Lemma default_last_app (a : bool) (l1 l2 : list bool) :
  default (default a (last l1)) (last l2) = default a (last (l1 ++ l2)).
Proof. rewrite last_app. destruct (last l2); reflexivity. Qed.

(** X7.  When a run ends through [rclcpp::ok()], the flip state is the value
    of the last flip message drained in the whole run, and [false], the
    initial value, when there was none. *)
Theorem X7_flip_state_is_last_toggle show_camera inps st evs :
  loop show_camera init inps = (Continue st, evs) ->
  is_flipped st = default false (last (toggles inps)).
Proof.
  change false with (is_flipped init) at 1. generalize init. revert st evs.
  induction inps as [|inp rest IH]; intros st evs st0; simpl.
  - intros [= <- _]. reflexivity.
  - destruct (loop_body show_camera st0 inp) as [[st1|e] evs1] eqn:Hbody;
      [| discriminate].
    destruct (loop show_camera st1 rest) as [o evs2] eqn:Hrest.
    intros [= -> _].
    rewrite (IH _ _ _ Hrest), (loop_body_is_flipped _ _ _ _ _ Hbody).
    unfold toggles. simpl. apply default_last_app.
Qed.

Lemma X7_witness :
  exists st evs,
    loop false init [Sample.tick None [true; false]; Sample.tick None [];
                     Sample.tick (Some Sample.gray2) [false; true];
                     Sample.tick None []]
    = (Continue st, evs) /\
    is_flipped st = true.
Proof.
  eexists _, _. split; [reflexivity |].
  refine (X7_flip_state_is_last_toggle false
            [Sample.tick None [true; false]; Sample.tick None [];
             Sample.tick (Some Sample.gray2) [false; true];
             Sample.tick None []] _ _ _).
  reflexivity.
Defined.

(** X8.  The flip messages drained in a pass act from the next pass on: what
    the pass publishes and shows is the same whatever is queued at its
    drain point. *)
Theorem X8_toggle_acts_from_next_pass show_camera st inp q :
  published (snd (loop_body show_camera st (with_pending inp q)))
  = published (snd (loop_body show_camera st inp)) /\
  displayed (snd (loop_body show_camera st (with_pending inp q)))
  = displayed (snd (loop_body show_camera st inp)).
Proof.
  destruct (VideoCapture_read (mem st) (frame st) (grabbed inp))
    as [h1 frame1] eqn:Hread.
  rewrite (loop_body_eq _ _ _ _ _ Hread).
  rewrite (loop_body_eq show_camera st (with_pending inp q) h1 frame1 Hread).
  destruct (Mat_empty frame1); [split; reflexivity |].
  destruct (if is_flipped st then _ else _) as [h2 flipped1].
  destruct (convert_frame_to_message _ _ _ _); [| split; reflexivity].
  destruct show_camera; split; reflexivity.
Qed.

(** ** What a pass publishes *)

Lemma length_mirror p :
  wf_picture p -> length (p_data (mirror p)) = length (p_data p).
Proof.
  intros (Hr & Hc & _ & Hl). pose proof (CV_ELEM_SIZE_pos (p_type p)) as He.
  simpl. rewrite length_concat_flipHoriz; [| lia |].
  - rewrite Hl, !Z2Nat.inj_mul by lia. reflexivity.
  - rewrite Hl, !Z2Nat.inj_mul by lia. reflexivity.
Qed.

(** X9.  In a run with well-formed grabs, a pass that gets a non-empty frame
    of a supported type publishes exactly one message: it carries the
    counter as [frame_id], the rows, columns and row size of the grabbed
    picture (as 32-bit values) as [height], [width] and [step], the encoding
    of its type, [is_bigendian] false, and as [data] the bytes of the
    picture, mirrored when the flip state is true.  The flip state changes
    the bytes only: not their number nor any other field.  When rows and row
    size fit 32 bits, [data] holds [step * height] bytes. *)
Theorem X9_published_message show_camera inps st evs0 inp p enc :
  Forall wf_input inps ->
  loop show_camera init inps = (Continue st, evs0) ->
  grabbed inp = Some p -> wf_picture p -> has_pixels p = true ->
  mat_type2encoding (p_type p) = Ok enc ->
  let msg :=
    Image.mk (to_string (i st)) (to_uint32 (p_rows p)) (to_uint32 (p_cols p))
      enc false (to_uint32 (p_cols p * CV_ELEM_SIZE (p_type p)))
      (p_data (if is_flipped st then mirror p else p)) in
  published (snd (loop_body show_camera st inp)) = [msg] /\
  length (Image.data msg) = length (p_data p) /\
  (p_rows p < 2 ^ 32 -> p_cols p * CV_ELEM_SIZE (p_type p) < 2 ^ 32 ->
   Z.of_nat (length (Image.data msg)) = Image.step msg * Image.height msg).
Proof.
  intros Hwfs Hrun Hg Hp Hpix Henc msg.
  assert (Hinv : inv st) by (eapply inv_loop; [apply inv_init | eassumption..]).
  assert (Hpos : 0 < p_rows p * p_cols p) by (apply Z.ltb_lt, Hpix).
  destruct (loop_body_grab show_camera _ _ _ Hinv Hg Hp Hpos)
    as (h1 & frame1 & h2 & flipped1 & _ & _ & _ & _ & _ & _ & _ & _ & Hbody).
  rewrite Henc in Hbody. rewrite Hbody. simpl snd.
  assert (Hlen : length (Image.data msg) = length (p_data p)).
  { subst msg. simpl. destruct (is_flipped st); [apply length_mirror, Hp |].
    reflexivity. }
  split; [apply published_shown |]. split; [exact Hlen |].
  intros Hr32 Hs32. rewrite Hlen. subst msg. simpl.
  destruct Hp as (Hr & Hc & _ & Hl).
  pose proof (CV_ELEM_SIZE_pos (p_type p)) as He.
  unfold to_uint32. rewrite !Z.mod_small by nia.
  rewrite Hl, Z2Nat.id by nia. lia.
Qed.

Lemma X9_witness :
  published (snd (loop_body false init (Sample.tick (Some Sample.bgr2x2) [true])))
  = [Image.mk "1" 2 2 "bgr8" false 6 (p_data Sample.bgr2x2)].
Proof.
  assert (Hp : wf_picture Sample.bgr2x2)
    by (split_and!; simpl; try lia; reflexivity).
  exact (proj1 (X9_published_message false [] init []
                  (Sample.tick (Some Sample.bgr2x2) [true]) Sample.bgr2x2 "bgr8"
                  (List.Forall_nil _) eq_refl eq_refl Hp eq_refl eq_refl)).
Defined.

Lemma convert_frame_to_message_fields h m id msg0 msg :
  convert_frame_to_message h m id msg0 = Ok msg ->
  Image.is_bigendian msg = Image.is_bigendian msg0 /\
  mat_type2encoding (Mat.type m) = Ok (Image.encoding msg).
Proof.
  unfold convert_frame_to_message.
  destruct (mat_type2encoding (Mat.type m)) as [enc|]; [| discriminate].
  intros [= <-]. split; reflexivity.
Qed.

Lemma loop_body_messages show_camera st inp :
  Forall (fun msg => Image.is_bigendian msg = false /\
                     Image.encoding msg ∈ encodings)
    (published (snd (loop_body show_camera st inp))) /\
  (length (published (snd (loop_body show_camera st inp))) <= 1)%nat.
Proof.
  destruct (VideoCapture_read (mem st) (frame st) (grabbed inp))
    as [h1 frame1] eqn:Hread.
  rewrite (loop_body_eq _ _ _ _ _ Hread).
  destruct (Mat_empty frame1); [split; [constructor | simpl; lia] |].
  destruct (if is_flipped st then _ else _) as [h2 flipped1].
  destruct (convert_frame_to_message _ _ _ _) as [msg|e] eqn:Hconv;
    [| split; [constructor | simpl; lia]].
  simpl snd. rewrite published_shown.
  destruct (convert_frame_to_message_fields _ _ _ _ _ Hconv) as [Hbe Henc].
  split; [| simpl; lia].
  constructor; [| constructor].
  split; [exact Hbe | apply (mat_type2encoding_Ok_in _ _ Henc)].
Qed.

(** X10.  Whatever the grabs are and from whatever state, every message a
    run publishes has [is_bigendian] false and one of the four encoding
    strings, and a run publishes at most one message per pass. *)
Theorem X10_published_messages show_camera inps st :
  Forall (fun msg => Image.is_bigendian msg = false /\
                     Image.encoding msg ∈ encodings)
    (published (snd (loop show_camera st inps))) /\
  (length (published (snd (loop show_camera st inps))) <= length inps)%nat.
Proof.
  revert st. induction inps as [|inp rest IH]; intros st; simpl.
  - split; [constructor | lia].
  - destruct (loop_body_messages show_camera st inp) as [Hmsgs Hlen].
    destruct (loop_body show_camera st inp) as [[st1|e] evs1]; simpl in *.
    + destruct (IH st1) as [Hmsgs' Hlen'].
      destruct (loop show_camera st1 rest) as [o evs2]. simpl in *.
      rewrite published_app, length_app.
      split; [apply Forall_app; split; assumption | lia].
    + split; [assumption | lia].
Qed.

(** ** Frames one pixel wide *)

Lemma flip_row_one_column esz row :
  length row = esz -> flip_row esz 1 row = row.
Proof.
  intros H. unfold flip_row, slice. simpl.
  rewrite app_nil_r. apply take_ge. lia.
Qed.

Lemma mirror_one_column p :
  wf_picture p -> p_cols p = 1 -> p_data (mirror p) = p_data p.
Proof.
  intros (Hr & Hc & _ & Hl) Hone. pose proof (CV_ELEM_SIZE_pos (p_type p)) as He.
  simpl. rewrite Hone in *. change (Z.to_nat 1) with 1%nat.
  rewrite Nat.mul_1_l. rewrite Z.mul_1_l in Hl.
  set (esz := Z.to_nat (CV_ELEM_SIZE (p_type p))) in *.
  assert (Hlen : length (p_data p) = (Z.to_nat (p_rows p) * esz)%nat).
  { rewrite Hl. apply Z2Nat.inj_mul; lia. }
  unfold flipHoriz. rewrite Nat.mul_1_l.
  transitivity (concat (read_rows (p_data p) esz esz (Z.to_nat (p_rows p))));
    [| apply concat_read_rows, Hlen].
  f_equal.
  transitivity (id <$> read_rows (p_data p) esz esz (Z.to_nat (p_rows p)));
    [| apply list_fmap_id].
  apply list_eq. intros r. rewrite list_lookup_fmap, (list_lookup_fmap id).
  destruct (read_rows (p_data p) esz esz (Z.to_nat (p_rows p)) !! r)
    as [row|] eqn:Hrow; [| reflexivity].
  simpl. f_equal. apply flip_row_one_column.
  pose proof (read_rows_uniform (p_data p) esz esz (Z.to_nat (p_rows p))
                (le_n _) Hlen) as HR.
  rewrite Forall_lookup in HR. apply (HR r row Hrow).
Qed.

(** X11.  For a frame one pixel wide the flip changes nothing: in a run with
    well-formed grabs the message of such a frame carries the bytes of the
    grabbed picture whether the flip state is true or false. *)
Theorem X11_one_column_frame show_camera inps st evs0 inp p :
  Forall wf_input inps ->
  loop show_camera init inps = (Continue st, evs0) ->
  grabbed inp = Some p -> wf_picture p -> has_pixels p = true ->
  has_encoding (p_type p) = true ->
  p_cols p = 1 ->
  Image.data <$> published (snd (loop_body show_camera st inp)) = [p_data p].
Proof.
  intros Hwfs Hrun Hg Hp Hpix Henc Hone.
  assert (Hinv : inv st) by (eapply inv_loop; [apply inv_init | eassumption..]).
  assert (Hpos : 0 < p_rows p * p_cols p) by (apply Z.ltb_lt, Hpix).
  destruct (loop_body_grab show_camera _ _ _ Hinv Hg Hp Hpos)
    as (h1 & frame1 & h2 & flipped1 & _ & _ & _ & _ & _ & _ & _ & _ & Hbody).
  unfold has_encoding in Henc.
  destruct (mat_type2encoding (p_type p)) as [enc|]; [| discriminate].
  rewrite Hbody. simpl snd. rewrite published_shown. simpl.
  destruct (is_flipped st); [rewrite (mirror_one_column p Hp Hone) |];
    reflexivity.
Qed.

Lemma X11_witness :
  let column :=
    {| p_rows := 2; p_cols := 1; p_type := CV_8UC3;
       p_data := [x01; x02; x03; x04; x05; x06] |} in
  let st := mkState true (Mat_release Mat_default) Mat_default 1 [] in
  Image.data <$> published (snd (loop_body false st (Sample.tick (Some column) [])))
  = [[x01; x02; x03; x04; x05; x06]].
Proof.
  intros column st.
  assert (Hwfs : Forall wf_input [Sample.tick None [true]])
    by (repeat constructor).
  assert (Hrun : loop false init [Sample.tick None [true]]
                 = (Continue st, [EvSpinSome [true]; EvSleep])) by reflexivity.
  assert (Hp : wf_picture column) by (split_and!; simpl; try lia; reflexivity).
  exact (X11_one_column_frame false _ st _ (Sample.tick (Some column) [])
           column Hwfs Hrun eq_refl Hp eq_refl eq_refl eq_refl).
Defined.
